(** * A shallow embedding of the rules engine of [ChessGame.tsx]

    The TypeScript component keeps the whole game in React state and
    computes legal moves, check, checkmate, stalemate and the automatic
    draws with closures over that state.  The embedding below follows the
    source function by function.  Coordinates are JavaScript numbers that
    only ever hold small integers, so they are [Z]; the board is the
    array of arrays of the source, a list of rows. *)

From Stdlib Require Import ZArith List Bool String Ascii Lia DecimalString Sorted.
Import ListNotations.
Local Open Scope Z_scope.

(** ** Data model (lines 7-17 and 72-77 of the source) *)

Inductive PieceType : Type := king | queen | rook | bishop | knight | pawn.
Inductive PieceColor : Type := white | black.

Record Piece : Type := mkPiece { type : PieceType; color : PieceColor }.

Record Position : Type := mkPos { row : Z; col : Z }.

Definition Board : Type := list (list (option Piece)).

Record CastlingRights : Type := mkRights {
  whiteKingside : bool;
  whiteQueenside : bool;
  blackKingside : bool;
  blackQueenside : bool
}.

Definition type_eqb (a b : PieceType) : bool :=
  match a, b with
  | king, king | queen, queen | rook, rook
  | bishop, bishop | knight, knight | pawn, pawn => true
  | _, _ => false
  end.

Definition color_eqb (a b : PieceColor) : bool :=
  match a, b with
  | white, white | black, black => true
  | _, _ => false
  end.

Definition pos_eqb (a b : Position) : bool :=
  (row a =? row b) && (col a =? col b).

(** [color === 'white' ? 'black' : 'white'] *)
Definition opponent (c : PieceColor) : PieceColor :=
  match c with white => black | black => white end.

(** ** Reading and writing squares

    [isValidSquare] is the local helper of the source.  [get b r c] is the
    read [b[r][c]]: on the 8x8 boards of the program every read of a row
    outside [0,8) is guarded by [isValidSquare], and a read of a column
    outside the row yields [undefined], which the source only tests for
    truthiness, like [null]. *)

Definition isValidSquare (r c : Z) : bool :=
  (r >=? 0) && (r <? 8) && (c >=? 0) && (c <? 8).

Definition get (b : Board) (r c : Z) : option Piece :=
  if isValidSquare r c
  then nth (Z.to_nat c) (nth (Z.to_nat r) b []) None
  else None.

Fixpoint updateNth {A : Type} (n : nat) (v : A) (l : list A) : list A :=
  match l, n with
  | [], _ => []
  | _ :: t, O => v :: t
  | h :: t, S k => h :: updateNth k v t
  end.

(** [b[r][c] = v] on a fresh copy of the rows ([board.map(row => [...row])]).
    Every write of the source lands on a square of the board. *)
Definition put (b : Board) (r c : Z) (v : option Piece) : Board :=
  if isValidSquare r c
  then updateNth (Z.to_nat r) (updateNth (Z.to_nat c) v (nth (Z.to_nat r) b [])) b
  else b.

Definition getAt (b : Board) (p : Position) : option Piece := get b (row p) (col p).

(** The nested [for (row...) for (col...)] scan order used all over the
    source: row-major, columns inside rows. *)
Definition indices : list Z := [0; 1; 2; 3; 4; 5; 6; 7].

Definition allSquares : list Position :=
  flat_map (fun r => map (fun c => mkPos r c) indices) indices.

(** ** initializeBoard (lines 40-70) *)

Definition backRank (c : PieceColor) : list (option Piece) :=
  map (fun t => Some (mkPiece t c))
      [rook; knight; bishop; queen; king; bishop; knight; rook].

Definition pawnRank (c : PieceColor) : list (option Piece) :=
  repeat (Some (mkPiece pawn c)) 8.

Definition emptyRank : list (option Piece) := repeat None 8.

Definition initializeBoard : Board :=
  [backRank black; pawnRank black; emptyRank; emptyRank;
   emptyRank; emptyRank; pawnRank white; backRank white].

Definition emptyBoard : Board := repeat emptyRank 8.

(** A board literal from a list of placed pieces, for concrete positions. *)
Definition place (b : Board) (x : Z * Z * PieceType * PieceColor) : Board :=
  match x with (r, c, t, k) => put b r c (Some (mkPiece t k)) end.

Definition boardOf (l : list (Z * Z * PieceType * PieceColor)) : Board :=
  fold_left place l emptyBoard.

(** ** findKing (lines 111-121) *)

Definition isKingOf (b : Board) (c : PieceColor) (p : Position) : bool :=
  match getAt b p with
  | Some pc => type_eqb (type pc) king && color_eqb (color pc) c
  | None => false
  end.

Definition findKing (b : Board) (c : PieceColor) : option Position :=
  find (isKingOf b c) allSquares.

(** Every square holding a king of color [c], in scan order; the data
    model asks for exactly one. *)
Definition kingSquares (b : Board) (c : PieceColor) : list Position :=
  filter (isKingOf b c) allSquares.

(** ** isSquareUnderAttack (lines 124-206)

    Five checks in the order of the source, each returning [true] early. *)

Definition knightMoves : list (Z * Z) :=
  [(-2, -1); (-2, 1); (-1, -2); (-1, 2); (1, -2); (1, 2); (2, -1); (2, 1)].

Definition kingRing : list (Z * Z) :=
  [(-1, -1); (-1, 0); (-1, 1); (0, -1); (0, 1); (1, -1); (1, 0); (1, 1)].

Definition diagonals : list (Z * Z) := [(1, 1); (1, -1); (-1, 1); (-1, -1)].
Definition straights : list (Z * Z) := [(0, 1); (0, -1); (1, 0); (-1, 0)].

Definition holds (b : Board) (r c : Z) (t : PieceType) (k : PieceColor) : bool :=
  isValidSquare r c &&
  match get b r c with
  | Some pc => type_eqb (type pc) t && color_eqb (color pc) k
  | None => false
  end.

(** The [while (isValidSquare(r, c))] walk of the two sliding checks.  The
    walk leaves the board after at most eight steps; [fuel] counts them. *)
Fixpoint rayAttack (fuel : nat) (b : Board) (byColor : PieceColor)
    (t1 t2 : PieceType) (r c dr dc : Z) : bool :=
  match fuel with
  | O => false
  | S f =>
      if isValidSquare r c then
        match get b r c with
        | Some pc =>
            color_eqb (color pc) byColor &&
            (type_eqb (type pc) t1 || type_eqb (type pc) t2)
        | None => rayAttack f b byColor t1 t2 (r + dr) (c + dc) dr dc
        end
      else false
  end.

Definition walkFuel : nat := 8%nat.

Definition isSquareUnderAttack (pos : Position) (b : Board) (byColor : PieceColor) : bool :=
  let pawnDirection := match byColor with white => -1 | black => 1 end in
  existsb (fun offset =>
             holds b (row pos - pawnDirection) (col pos + offset) pawn byColor)
          [-1; 1]
  || existsb (fun d => holds b (row pos + fst d) (col pos + snd d) knight byColor)
             knightMoves
  || existsb (fun d => holds b (row pos + fst d) (col pos + snd d) king byColor)
             kingRing
  || existsb (fun d => rayAttack walkFuel b byColor bishop queen
                         (row pos + fst d) (col pos + snd d) (fst d) (snd d))
             diagonals
  || existsb (fun d => rayAttack walkFuel b byColor rook queen
                         (row pos + fst d) (col pos + snd d) (fst d) (snd d))
             straights.

(** ** isKingInCheck (lines 209-213) *)

Definition isKingInCheck (b : Board) (c : PieceColor) : bool :=
  match findKing b c with
  | None => false
  | Some kingPos => isSquareUnderAttack kingPos b (opponent c)
  end.

(** ** getPseudoLegalMoves (lines 216-359)

    The callback closes over the React state [enPassantTarget] and
    [castlingRights]; they are the first two arguments here.  Moves are
    pushed in the order of the source, duplicates included. *)

Definition isEmptyOrEnemy (b : Board) (c : PieceColor) (r k : Z) : bool :=
  if isValidSquare r k then
    match get b r k with
    | None => true
    | Some target => negb (color_eqb (color target) c)
    end
  else false.

Definition isNone {A : Type} (o : option A) : bool :=
  match o with None => true | Some _ => false end.

(** The [while] walk of bishop, rook and queen. *)
Fixpoint slide (fuel : nat) (b : Board) (c : PieceColor) (r k dr dc : Z)
    : list Position :=
  match fuel with
  | O => []
  | S f =>
      if isValidSquare r k then
        match get b r k with
        | Some pc => if color_eqb (color pc) c then [] else [mkPos r k]
        | None => mkPos r k :: slide f b c (r + dr) (k + dc) dr dc
        end
      else []
  end.

Definition slides (b : Board) (c : PieceColor) (r k : Z) (dirs : list (Z * Z))
    : list Position :=
  flat_map (fun d => slide walkFuel b c (r + fst d) (k + snd d) (fst d) (snd d)) dirs.

Definition steps (b : Board) (c : PieceColor) (r k : Z) (offs : list (Z * Z))
    : list Position :=
  flat_map (fun d => if isEmptyOrEnemy b c (r + fst d) (k + snd d)
                     then [mkPos (r + fst d) (k + snd d)] else [])
           offs.

Definition queenDirs : list (Z * Z) :=
  [(0, 1); (0, -1); (1, 0); (-1, 0); (1, 1); (1, -1); (-1, 1); (-1, -1)].

Definition pawnMoves (enPassantTarget : option Position) (b : Board)
    (c : PieceColor) (r k : Z) : list Position :=
  let direction := match c with white => -1 | black => 1 end in
  (if isValidSquare (r + direction) k && isNone (get b (r + direction) k) then
     mkPos (r + direction) k ::
     (let startRow := match c with white => 6 | black => 1 end in
      if (r =? startRow) && isNone (get b (r + 2 * direction) k)
      then [mkPos (r + 2 * direction) k] else [])
   else [])
  ++ flat_map (fun offset =>
       let newCol := k + offset in
       if isValidSquare (r + direction) newCol then
         (match get b (r + direction) newCol with
          | Some target =>
              if negb (color_eqb (color target) c)
              then [mkPos (r + direction) newCol] else []
          | None => []
          end)
         ++ (match enPassantTarget with
             | Some ep =>
                 if (r + direction =? row ep) && (newCol =? col ep)
                 then [mkPos (r + direction) newCol] else []
             | None => []
             end)
       else [])
     [-1; 1].

Definition isRook (o : option Piece) : bool :=
  match o with Some pc => type_eqb (type pc) rook | None => false end.

(** [color === 'white' ? 7 : 0] and the two right selectors of lines 336
    and 345. *)
Definition baseRowOf (c : PieceColor) : Z :=
  match c with white => 7 | black => 0 end.

Definition kingsideRight (cr : CastlingRights) (c : PieceColor) : bool :=
  match c with white => whiteKingside cr | black => blackKingside cr end.

Definition queensideRight (cr : CastlingRights) (c : PieceColor) : bool :=
  match c with white => whiteQueenside cr | black => blackQueenside cr end.

Definition castlingMoves (castlingRights : CastlingRights) (b : Board)
    (c : PieceColor) (r k : Z) : list Position :=
  if negb (isKingInCheck b c) then
    let baseRow := baseRowOf c in
    if (r =? baseRow) && (k =? 4) then
      (if kingsideRight castlingRights c then
         if isNone (get b baseRow 5) && isNone (get b baseRow 6)
            && isRook (get b baseRow 7)
         then
           if negb (isSquareUnderAttack (mkPos baseRow 5) b (opponent c))
              && negb (isSquareUnderAttack (mkPos baseRow 6) b (opponent c))
           then [mkPos baseRow 6] else []
         else []
       else [])
      ++
      (if queensideRight castlingRights c then
         if isNone (get b baseRow 3) && isNone (get b baseRow 2)
            && isNone (get b baseRow 1) && isRook (get b baseRow 0)
         then
           if negb (isSquareUnderAttack (mkPos baseRow 3) b (opponent c))
              && negb (isSquareUnderAttack (mkPos baseRow 2) b (opponent c))
           then [mkPos baseRow 2] else []
         else []
       else [])
    else []
  else [].

Definition getPseudoLegalMoves (enPassantTarget : option Position)
    (castlingRights : CastlingRights) (pos : Position) (b : Board)
    : list Position :=
  match getAt b pos with
  | None => []
  | Some piece =>
      let r := row pos in
      let k := col pos in
      let c := color piece in
      match type piece with
      | pawn => pawnMoves enPassantTarget b c r k
      | knight => steps b c r k knightMoves
      | bishop => slides b c r k diagonals
      | rook => slides b c r k straights
      | queen => slides b c r k queenDirs
      | king => steps b c r k queenDirs ++ castlingMoves castlingRights b c r k
      end
  end.

(** ** getValidMoves (lines 362-406) *)

Definition isKing (o : option Piece) : bool :=
  match o with Some pc => type_eqb (type pc) king | None => false end.

(** The scratch board of one candidate: en passant removal, rook
    relocation, then the move itself (lines 378-397). *)
Definition simulateMove (enPassantTarget : option Position) (pos move : Position)
    (b : Board) (piece : Piece) : Board :=
  let b1 :=
    match type piece, enPassantTarget with
    | pawn, Some ep =>
        if (row move =? row ep) && (col move =? col ep) then
          let capturedPawnRow :=
            match color piece with white => row move + 1 | black => row move - 1 end in
          put b capturedPawnRow (col move) None
        else b
    | _, _ => b
    end in
  let b2 :=
    if type_eqb (type piece) king && (Z.abs (col move - col pos) =? 2) then
      let isKingside := col move >? col pos in
      let rookFromCol := if isKingside then 7 else 0 in
      let rookToCol := if isKingside then 5 else 3 in
      put (put b1 (row pos) rookToCol (get b1 (row pos) rookFromCol))
          (row pos) rookFromCol None
    else b1 in
  put (put b2 (row move) (col move) (get b2 (row pos) (col pos)))
      (row pos) (col pos) None.

Definition keepsKingSafe (enPassantTarget : option Position) (pos : Position)
    (b : Board) (piece : Piece) (move : Position) : bool :=
  if isKing (getAt b move) then false
  else negb (isKingInCheck (simulateMove enPassantTarget pos move b piece) (color piece)).

Definition getValidMoves (enPassantTarget : option Position)
    (castlingRights : CastlingRights) (pos : Position) (b : Board)
    : list Position :=
  match getAt b pos with
  | None => []
  | Some piece =>
      filter (keepsKingSafe enPassantTarget pos b piece)
             (getPseudoLegalMoves enPassantTarget castlingRights pos b)
  end.

Definition allRights : CastlingRights := mkRights true true true true.

(** ** checkForCheckmate and checkForStalemate (lines 409-439)

    Both scan the board and return [false] at the first piece of [c] that
    has a valid move. *)

Definition hasValidMove (ep : option Position) (cr : CastlingRights)
    (b : Board) (c : PieceColor) (sq : Position) : bool :=
  match getAt b sq with
  | Some piece =>
      color_eqb (color piece) c
      && (0 <? Z.of_nat (List.length (getValidMoves ep cr sq b)))
  | None => false
  end.

Definition checkForCheckmate (ep : option Position) (cr : CastlingRights)
    (b : Board) (c : PieceColor) : bool :=
  if negb (isKingInCheck b c) then false
  else negb (existsb (hasValidMove ep cr b c) allSquares).

Definition checkForStalemate (ep : option Position) (cr : CastlingRights)
    (b : Board) (c : PieceColor) : bool :=
  if isKingInCheck b c then false
  else negb (existsb (hasValidMove ep cr b c) allSquares).

(** ** boardToString (lines 442-455) *)

Local Open Scope string_scope.

Definition numStr (z : Z) : string := NilZero.string_of_int (Z.to_int z).

Definition boolStr (x : bool) : string := if x then "true" else "false".

Definition colorName (c : PieceColor) : string :=
  match c with white => "white" | black => "black" end.

Definition typeName (t : PieceType) : string :=
  match t with
  | king => "king" | queen => "queen" | rook => "rook"
  | bishop => "bishop" | knight => "knight" | pawn => "pawn"
  end.

(** [s[0]] of a non-empty string. *)
Definition firstChar (s : string) : string :=
  match s with
  | EmptyString => EmptyString
  | String a _ => String a EmptyString
  end.

Definition boardToString (b : Board) (turn : PieceColor) (rights : CastlingRights)
    (enPassant : option Position) : string :=
  let str :=
    fold_left (fun acc sq =>
                 match getAt b sq with
                 | Some piece =>
                     acc ++ firstChar (colorName (color piece))
                         ++ firstChar (typeName (type piece))
                         ++ numStr (row sq) ++ numStr (col sq)
                 | None => acc
                 end)
              allSquares "" in
  let str := str ++ "|" ++ colorName turn ++ "|"
                 ++ boolStr (whiteKingside rights) ++ boolStr (whiteQueenside rights)
                 ++ boolStr (blackKingside rights) ++ boolStr (blackQueenside rights) in
  match enPassant with
  | Some ep => str ++ "|ep" ++ numStr (row ep) ++ numStr (col ep)
  | None => str
  end.

Local Close Scope string_scope.

(** ** hasInsufficientMaterial (lines 458-504) *)

Definition nonKingPieces (b : Board) : list Piece :=
  flat_map (fun sq => match getAt b sq with
                      | Some piece => if negb (type_eqb (type piece) king)
                                      then [piece] else []
                      | None => []
                      end)
           allSquares.

(** The second scan: the first bishop met goes to [bishop1Pos], every
    later one overwrites [bishop2Pos]. *)
Definition bishopScan (b : Board) : option Position * option Position :=
  fold_left (fun acc sq =>
               match getAt b sq with
               | Some piece =>
                   if type_eqb (type piece) bishop then
                     match fst acc with
                     | None => (Some sq, snd acc)
                     | Some _ => (fst acc, Some sq)
                     end
                   else acc
               | None => acc
               end)
            allSquares (None, None).

Definition hasInsufficientMaterial (b : Board) : bool :=
  match nonKingPieces b with
  | [] => true
  | [piece] => type_eqb (type piece) bishop || type_eqb (type piece) knight
  | [p1; p2] =>
      if type_eqb (type p1) bishop && type_eqb (type p2) bishop then
        match bishopScan b with
        | (Some bishop1Pos, Some bishop2Pos) =>
            let color1 := Z.rem (row bishop1Pos + col bishop1Pos) 2 in
            let color2 := Z.rem (row bishop2Pos + col bishop2Pos) 2 in
            color1 =? color2
        | _ => false
        end
      else false
  | _ => false
  end.

(** ** The React state of the component (lines 81-102)

    One field per [useState] cell that the rules read or write;
    [capturedPieces] is split into its [white] and [black] lists.  The
    hint highlight and the sounds carry no rules and are left out. *)

Record State : Type := mkState {
  board : Board;
  selectedSquare : option Position;
  validMoves : list Position;
  currentTurn : PieceColor;
  capturedWhite : list Piece;
  capturedBlack : list Piece;
  castlingRights : CastlingRights;
  enPassantTarget : option Position;
  promotionSquare : option Position;
  whiteInCheck : bool;
  blackInCheck : bool;
  isCheckmate : bool;
  isStalemate : bool;
  isDraw : bool;
  drawReason : string;
  halfMoveClock : Z;
  positionHistory : list string
}.

(** The setters returned by [useState]. *)

Definition setBoard (v : Board) (s : State) : State :=
  {| board := v; selectedSquare := selectedSquare s;
     validMoves := validMoves s; currentTurn := currentTurn s;
     capturedWhite := capturedWhite s; capturedBlack := capturedBlack s;
     castlingRights := castlingRights s;
     enPassantTarget := enPassantTarget s;
     promotionSquare := promotionSquare s; whiteInCheck := whiteInCheck s;
     blackInCheck := blackInCheck s; isCheckmate := isCheckmate s;
     isStalemate := isStalemate s; isDraw := isDraw s;
     drawReason := drawReason s; halfMoveClock := halfMoveClock s;
     positionHistory := positionHistory s |}.

Definition setSelectedSquare (v : option Position) (s : State) : State :=
  {| board := board s; selectedSquare := v; validMoves := validMoves s;
     currentTurn := currentTurn s; capturedWhite := capturedWhite s;
     capturedBlack := capturedBlack s; castlingRights := castlingRights s;
     enPassantTarget := enPassantTarget s;
     promotionSquare := promotionSquare s; whiteInCheck := whiteInCheck s;
     blackInCheck := blackInCheck s; isCheckmate := isCheckmate s;
     isStalemate := isStalemate s; isDraw := isDraw s;
     drawReason := drawReason s; halfMoveClock := halfMoveClock s;
     positionHistory := positionHistory s |}.

Definition setValidMoves (v : list Position) (s : State) : State :=
  {| board := board s; selectedSquare := selectedSquare s; validMoves := v;
     currentTurn := currentTurn s; capturedWhite := capturedWhite s;
     capturedBlack := capturedBlack s; castlingRights := castlingRights s;
     enPassantTarget := enPassantTarget s;
     promotionSquare := promotionSquare s; whiteInCheck := whiteInCheck s;
     blackInCheck := blackInCheck s; isCheckmate := isCheckmate s;
     isStalemate := isStalemate s; isDraw := isDraw s;
     drawReason := drawReason s; halfMoveClock := halfMoveClock s;
     positionHistory := positionHistory s |}.

Definition setCurrentTurn (v : PieceColor) (s : State) : State :=
  {| board := board s; selectedSquare := selectedSquare s;
     validMoves := validMoves s; currentTurn := v;
     capturedWhite := capturedWhite s; capturedBlack := capturedBlack s;
     castlingRights := castlingRights s;
     enPassantTarget := enPassantTarget s;
     promotionSquare := promotionSquare s; whiteInCheck := whiteInCheck s;
     blackInCheck := blackInCheck s; isCheckmate := isCheckmate s;
     isStalemate := isStalemate s; isDraw := isDraw s;
     drawReason := drawReason s; halfMoveClock := halfMoveClock s;
     positionHistory := positionHistory s |}.

Definition setCapturedWhite (v : list Piece) (s : State) : State :=
  {| board := board s; selectedSquare := selectedSquare s;
     validMoves := validMoves s; currentTurn := currentTurn s;
     capturedWhite := v; capturedBlack := capturedBlack s;
     castlingRights := castlingRights s;
     enPassantTarget := enPassantTarget s;
     promotionSquare := promotionSquare s; whiteInCheck := whiteInCheck s;
     blackInCheck := blackInCheck s; isCheckmate := isCheckmate s;
     isStalemate := isStalemate s; isDraw := isDraw s;
     drawReason := drawReason s; halfMoveClock := halfMoveClock s;
     positionHistory := positionHistory s |}.

Definition setCapturedBlack (v : list Piece) (s : State) : State :=
  {| board := board s; selectedSquare := selectedSquare s;
     validMoves := validMoves s; currentTurn := currentTurn s;
     capturedWhite := capturedWhite s; capturedBlack := v;
     castlingRights := castlingRights s;
     enPassantTarget := enPassantTarget s;
     promotionSquare := promotionSquare s; whiteInCheck := whiteInCheck s;
     blackInCheck := blackInCheck s; isCheckmate := isCheckmate s;
     isStalemate := isStalemate s; isDraw := isDraw s;
     drawReason := drawReason s; halfMoveClock := halfMoveClock s;
     positionHistory := positionHistory s |}.

Definition setCastlingRights (v : CastlingRights) (s : State) : State :=
  {| board := board s; selectedSquare := selectedSquare s;
     validMoves := validMoves s; currentTurn := currentTurn s;
     capturedWhite := capturedWhite s; capturedBlack := capturedBlack s;
     castlingRights := v; enPassantTarget := enPassantTarget s;
     promotionSquare := promotionSquare s; whiteInCheck := whiteInCheck s;
     blackInCheck := blackInCheck s; isCheckmate := isCheckmate s;
     isStalemate := isStalemate s; isDraw := isDraw s;
     drawReason := drawReason s; halfMoveClock := halfMoveClock s;
     positionHistory := positionHistory s |}.

Definition setEnPassantTarget (v : option Position) (s : State) : State :=
  {| board := board s; selectedSquare := selectedSquare s;
     validMoves := validMoves s; currentTurn := currentTurn s;
     capturedWhite := capturedWhite s; capturedBlack := capturedBlack s;
     castlingRights := castlingRights s; enPassantTarget := v;
     promotionSquare := promotionSquare s; whiteInCheck := whiteInCheck s;
     blackInCheck := blackInCheck s; isCheckmate := isCheckmate s;
     isStalemate := isStalemate s; isDraw := isDraw s;
     drawReason := drawReason s; halfMoveClock := halfMoveClock s;
     positionHistory := positionHistory s |}.

Definition setPromotionSquare (v : option Position) (s : State) : State :=
  {| board := board s; selectedSquare := selectedSquare s;
     validMoves := validMoves s; currentTurn := currentTurn s;
     capturedWhite := capturedWhite s; capturedBlack := capturedBlack s;
     castlingRights := castlingRights s;
     enPassantTarget := enPassantTarget s; promotionSquare := v;
     whiteInCheck := whiteInCheck s; blackInCheck := blackInCheck s;
     isCheckmate := isCheckmate s; isStalemate := isStalemate s;
     isDraw := isDraw s; drawReason := drawReason s;
     halfMoveClock := halfMoveClock s;
     positionHistory := positionHistory s |}.

Definition setWhiteInCheck (v : bool) (s : State) : State :=
  {| board := board s; selectedSquare := selectedSquare s;
     validMoves := validMoves s; currentTurn := currentTurn s;
     capturedWhite := capturedWhite s; capturedBlack := capturedBlack s;
     castlingRights := castlingRights s;
     enPassantTarget := enPassantTarget s;
     promotionSquare := promotionSquare s; whiteInCheck := v;
     blackInCheck := blackInCheck s; isCheckmate := isCheckmate s;
     isStalemate := isStalemate s; isDraw := isDraw s;
     drawReason := drawReason s; halfMoveClock := halfMoveClock s;
     positionHistory := positionHistory s |}.

Definition setBlackInCheck (v : bool) (s : State) : State :=
  {| board := board s; selectedSquare := selectedSquare s;
     validMoves := validMoves s; currentTurn := currentTurn s;
     capturedWhite := capturedWhite s; capturedBlack := capturedBlack s;
     castlingRights := castlingRights s;
     enPassantTarget := enPassantTarget s;
     promotionSquare := promotionSquare s; whiteInCheck := whiteInCheck s;
     blackInCheck := v; isCheckmate := isCheckmate s;
     isStalemate := isStalemate s; isDraw := isDraw s;
     drawReason := drawReason s; halfMoveClock := halfMoveClock s;
     positionHistory := positionHistory s |}.

Definition setIsCheckmate (v : bool) (s : State) : State :=
  {| board := board s; selectedSquare := selectedSquare s;
     validMoves := validMoves s; currentTurn := currentTurn s;
     capturedWhite := capturedWhite s; capturedBlack := capturedBlack s;
     castlingRights := castlingRights s;
     enPassantTarget := enPassantTarget s;
     promotionSquare := promotionSquare s; whiteInCheck := whiteInCheck s;
     blackInCheck := blackInCheck s; isCheckmate := v;
     isStalemate := isStalemate s; isDraw := isDraw s;
     drawReason := drawReason s; halfMoveClock := halfMoveClock s;
     positionHistory := positionHistory s |}.

Definition setIsStalemate (v : bool) (s : State) : State :=
  {| board := board s; selectedSquare := selectedSquare s;
     validMoves := validMoves s; currentTurn := currentTurn s;
     capturedWhite := capturedWhite s; capturedBlack := capturedBlack s;
     castlingRights := castlingRights s;
     enPassantTarget := enPassantTarget s;
     promotionSquare := promotionSquare s; whiteInCheck := whiteInCheck s;
     blackInCheck := blackInCheck s; isCheckmate := isCheckmate s;
     isStalemate := v; isDraw := isDraw s; drawReason := drawReason s;
     halfMoveClock := halfMoveClock s;
     positionHistory := positionHistory s |}.

Definition setIsDraw (v : bool) (s : State) : State :=
  {| board := board s; selectedSquare := selectedSquare s;
     validMoves := validMoves s; currentTurn := currentTurn s;
     capturedWhite := capturedWhite s; capturedBlack := capturedBlack s;
     castlingRights := castlingRights s;
     enPassantTarget := enPassantTarget s;
     promotionSquare := promotionSquare s; whiteInCheck := whiteInCheck s;
     blackInCheck := blackInCheck s; isCheckmate := isCheckmate s;
     isStalemate := isStalemate s; isDraw := v; drawReason := drawReason s;
     halfMoveClock := halfMoveClock s;
     positionHistory := positionHistory s |}.

Definition setDrawReason (v : string) (s : State) : State :=
  {| board := board s; selectedSquare := selectedSquare s;
     validMoves := validMoves s; currentTurn := currentTurn s;
     capturedWhite := capturedWhite s; capturedBlack := capturedBlack s;
     castlingRights := castlingRights s;
     enPassantTarget := enPassantTarget s;
     promotionSquare := promotionSquare s; whiteInCheck := whiteInCheck s;
     blackInCheck := blackInCheck s; isCheckmate := isCheckmate s;
     isStalemate := isStalemate s; isDraw := isDraw s; drawReason := v;
     halfMoveClock := halfMoveClock s;
     positionHistory := positionHistory s |}.

Definition setHalfMoveClock (v : Z) (s : State) : State :=
  {| board := board s; selectedSquare := selectedSquare s;
     validMoves := validMoves s; currentTurn := currentTurn s;
     capturedWhite := capturedWhite s; capturedBlack := capturedBlack s;
     castlingRights := castlingRights s;
     enPassantTarget := enPassantTarget s;
     promotionSquare := promotionSquare s; whiteInCheck := whiteInCheck s;
     blackInCheck := blackInCheck s; isCheckmate := isCheckmate s;
     isStalemate := isStalemate s; isDraw := isDraw s;
     drawReason := drawReason s; halfMoveClock := v;
     positionHistory := positionHistory s |}.

Definition setPositionHistory (v : list string) (s : State) : State :=
  {| board := board s; selectedSquare := selectedSquare s;
     validMoves := validMoves s; currentTurn := currentTurn s;
     capturedWhite := capturedWhite s; capturedBlack := capturedBlack s;
     castlingRights := castlingRights s;
     enPassantTarget := enPassantTarget s;
     promotionSquare := promotionSquare s; whiteInCheck := whiteInCheck s;
     blackInCheck := blackInCheck s; isCheckmate := isCheckmate s;
     isStalemate := isStalemate s; isDraw := isDraw s;
     drawReason := drawReason s; halfMoveClock := halfMoveClock s;
     positionHistory := v |}.

(** ** Scheduled opponent moves

    [handleSquareClick] and [handlePromotion] end with
    [setTimeout(() => makeAIMove(newBoard, rights, enPassant), 500)].  The
    [makeAIMove] named there is the callback of the render in which the
    handler was created, so everything it reads from the component scope
    ([halfMoveClock], [positionHistory], and, through [getValidMoves],
    [enPassantTarget] and [castlingRights]) has the values of that render,
    the state before the move just made; only the three arguments are
    fresh.  Its setters write to the live state.  A [Timer] records the
    render state the callback closes over together with its arguments. *)

Record Timer : Type := mkTimer {
  closure : State;
  argBoard : Board;
  argRights : CastlingRights;
  argEnPassant : option Position
}.

Record Move : Type := mkMove { from : Position; to : Position }.

Definition isSome {A : Type} (o : option A) : bool := negb (isNone o).

Definition isPawn (p : Piece) : bool := type_eqb (type p) pawn.

(** The shared middle of both appliers: en passant removal (lines 580-587
    and 747-754).  Returns the board, the captured piece and the capture
    flag. *)
Definition enPassantCapture (movingPiece : Piece) (enPassant : option Position)
    (r k : Z) (b : Board) (capturedPiece : option Piece)
    : Board * option Piece * bool :=
  match enPassant with
  | Some ep =>
      if isPawn movingPiece && (r =? row ep) && (k =? col ep) then
        let capturedPawnRow :=
          match color movingPiece with white => r + 1 | black => r - 1 end in
        (put b capturedPawnRow k None, get b capturedPawnRow k, true)
      else (b, capturedPiece, isSome capturedPiece)
  | None => (b, capturedPiece, isSome capturedPiece)
  end.

(** Rook relocation of a castling move (lines 589-597 and 756-764). *)
Definition castleRook (isCastling : bool) (fromRow fromCol toCol : Z) (b : Board)
    : Board :=
  if isCastling then
    let isKingside := toCol >? fromCol in
    let rookFromCol := if isKingside then 7 else 0 in
    let rookToCol := if isKingside then 5 else 3 in
    put (put b fromRow rookToCol (get b fromRow rookFromCol)) fromRow rookFromCol None
  else b.

(** Castling-rights update (lines 599-614 and 766-781); [mover] is the
    only color whose rook moves are looked at by that applier. *)
Definition updateRights (mover : PieceColor) (movingPiece : Piece) (fromCol : Z)
    (cr : CastlingRights) : CastlingRights :=
  let cr1 :=
    if type_eqb (type movingPiece) king then
      match color movingPiece with
      | white => mkRights false false (blackKingside cr) (blackQueenside cr)
      | black => mkRights (whiteKingside cr) (whiteQueenside cr) false false
      end
    else cr in
  if type_eqb (type movingPiece) rook && color_eqb (color movingPiece) mover then
    match mover with
    | white =>
        mkRights (if fromCol =? 7 then false else whiteKingside cr1)
                 (if fromCol =? 0 then false else whiteQueenside cr1)
                 (blackKingside cr1) (blackQueenside cr1)
    | black =>
        mkRights (whiteKingside cr1) (whiteQueenside cr1)
                 (if fromCol =? 7 then false else blackKingside cr1)
                 (if fromCol =? 0 then false else blackQueenside cr1)
    end
  else cr1.

(** En passant target of a double pawn step (lines 616-622 and 783-789). *)
Definition doubleStepTarget (movingPiece : Piece) (fromRow fromCol toRow : Z)
    : option Position :=
  if isPawn movingPiece && (Z.abs (toRow - fromRow) =? 2) then
    Some (mkPos (match color movingPiece with
                 | white => fromRow - 1
                 | black => fromRow + 1
                 end) fromCol)
  else None.

Definition countKey (key : string) (history : list string) : Z :=
  Z.of_nat (List.length (filter (fun pos => String.eqb pos key) history)).

Definition declareDraw (reason : string) (s : State) : State :=
  setDrawReason reason (setIsDraw true s).

(** ** makeAIMove (lines 507-715)

    [cl] is the render state the callback closes over, [live] the state
    its setters act on.  [rnd] stands for the one [Math.random()] draw:
    [Math.floor(Math.random() * n)] is some index below [n], here
    [rnd mod n]. *)

Definition collectMoves (ep : option Position) (cr : CastlingRights) (b : Board)
    (c : PieceColor) : list Move :=
  flat_map (fun sq =>
              match getAt b sq with
              | Some piece =>
                  if color_eqb (color piece) c
                  then map (fun t => mkMove sq t) (getValidMoves ep cr sq b)
                  else []
              | None => []
              end)
           allSquares.

Definition pick {A : Type} (rnd : nat) (l : list A) : option A :=
  nth_error l (rnd mod List.length l).

Definition isKingMove (b : Board) (m : Move) : bool := isKing (getAt b (from m)).
Definition isCaptureMove (b : Board) (m : Move) : bool := isSome (getAt b (to m)).

(** Lines 539-559. *)
Definition chooseMove (rnd : nat) (currentBoard : Board) (blackInCheckNow : bool)
    (allMoves : list Move) : option Move :=
  if blackInCheckNow then
    let kingMoves := filter (isKingMove currentBoard) allMoves in
    let captureMoves := filter (isCaptureMove currentBoard) allMoves in
    if 0 <? Z.of_nat (List.length kingMoves) then pick rnd kingMoves
    else if 0 <? Z.of_nat (List.length captureMoves) then pick rnd captureMoves
    else pick rnd allMoves
  else pick rnd allMoves.

Definition makeAIMove (cl : State) (rnd : nat) (currentBoard : Board)
    (currentCastlingRights : CastlingRights) (currentEnPassant : option Position)
    (live : State) : State :=
  let ep := enPassantTarget cl in
  let cr := castlingRights cl in
  let blackInCheckNow := isKingInCheck currentBoard black in
  let allMoves := collectMoves ep cr currentBoard black in
  if (Z.of_nat (List.length allMoves) =? 0) then
    if checkForCheckmate ep cr currentBoard black
    then setIsCheckmate true live
    else declareDraw "Stalemate" (setIsStalemate true live)
  else
  match chooseMove rnd currentBoard blackInCheckNow allMoves with
  | None => live
  | Some randomMove =>
  match getAt currentBoard (from randomMove) with
  | None => live
  | Some movingPiece =>
  let fr := row (from randomMove) in
  let fc := col (from randomMove) in
  let tr := row (to randomMove) in
  let tc := col (to randomMove) in
  let capturedPiece := get currentBoard tr tc in
  if isKing capturedPiece then live else
  let '(newBoard, capturedPiece, isCapture) :=
    enPassantCapture movingPiece currentEnPassant tr tc currentBoard capturedPiece in
  let isCastling := type_eqb (type movingPiece) king && (Z.abs (tc - fc) =? 2) in
  let newBoard := castleRook isCastling fr fc tc newBoard in
  let newCastlingRights := updateRights black movingPiece fc currentCastlingRights in
  let newEnPassant := doubleStepTarget movingPiece fr fc tr in
  let newBoard := put (put newBoard tr tc (Some movingPiece)) fr fc None in
  let newBoard :=
    if isPawn movingPiece && (tr =? 7)
    then put newBoard tr tc (Some (mkPiece queen black)) else newBoard in
  let s :=
    match capturedPiece with
    | Some cp => if isCapture then setCapturedWhite (capturedWhite live ++ [cp]) live
                 else live
    | None => live
    end in
  if isKingInCheck newBoard black then s else
  let s := setEnPassantTarget newEnPassant
             (setCastlingRights newCastlingRights (setBoard newBoard s)) in
  let newHalfMoveClock :=
    if isPawn movingPiece || isCapture then 0 else halfMoveClock cl + 1 in
  let s := setHalfMoveClock newHalfMoveClock s in
  if newHalfMoveClock >=? 100 then declareDraw "Fifty-move rule" s else
  let newPositionString := boardToString newBoard white newCastlingRights newEnPassant in
  let newHistory := positionHistory cl ++ [newPositionString] in
  let s := setPositionHistory newHistory s in
  if countKey newPositionString newHistory >=? 3
  then declareDraw "Threefold repetition" s else
  if hasInsufficientMaterial newBoard
  then declareDraw "Insufficient material" s else
  let checkWhite := isKingInCheck newBoard white in
  let s := setBlackInCheck false (setWhiteInCheck checkWhite s) in
  let s := if checkWhite && checkForCheckmate ep cr newBoard white
           then setIsCheckmate true s else s in
  if negb checkWhite && checkForStalemate ep cr newBoard white
  then declareDraw "Stalemate" (setIsStalemate true s)
  else setCurrentTurn white s
  end
  end.

Definition fire (t : Timer) (rnd : nat) (live : State) : State :=
  makeAIMove (closure t) rnd (argBoard t) (argRights t) (argEnPassant t) live.

(** ** handleSquareClick (lines 717-923)

    The click handler is rebuilt on every render, so it reads the live
    state [s].  The result is the next state and the opponent move it
    schedules, if any. *)

Definition selectPiece (s : State) (r k : Z) : State :=
  match get (board s) r k with
  | Some piece =>
      if color_eqb (color piece) white then
        let pieceMoves :=
          getValidMoves (enPassantTarget s) (castlingRights s) (mkPos r k) (board s) in
        if whiteInCheck s && (Z.of_nat (List.length pieceMoves) =? 0)
        then setValidMoves [] (setSelectedSquare None s)
        else setValidMoves pieceMoves (setSelectedSquare (Some (mkPos r k)) s)
      else setValidMoves [] (setSelectedSquare None s)
  | None => setValidMoves [] (setSelectedSquare None s)
  end.

Definition applyHumanMove (s : State) (sel : Position) (r k : Z)
    : State * option Timer :=
  match get (board s) (row sel) (col sel) with
  | None => (s, None)
  | Some movingPiece =>
  let capturedPiece := get (board s) r k in
  if isKing capturedPiece
  then (setValidMoves [] (setSelectedSquare None s), None) else
  let '(newBoard, capturedPiece, isCapture) :=
    enPassantCapture movingPiece (enPassantTarget s) r k (board s) capturedPiece in
  let isCastling :=
    type_eqb (type movingPiece) king && (Z.abs (k - col sel) =? 2) in
  let newBoard := castleRook isCastling (row sel) (col sel) k newBoard in
  let newCastlingRights := updateRights white movingPiece (col sel) (castlingRights s) in
  let newEnPassant := doubleStepTarget movingPiece (row sel) (col sel) r in
  let newBoard := put (put newBoard r k (Some movingPiece)) (row sel) (col sel) None in
  if isPawn movingPiece && (r =? 0) then
    (setValidMoves [] (setSelectedSquare None
       (setBoard newBoard (setPromotionSquare (Some (mkPos r k)) s))), None)
  else
  let s1 :=
    match capturedPiece with
    | Some cp => if isCapture then setCapturedBlack (capturedBlack s ++ [cp]) s else s
    | None => s
    end in
  let s1 := setValidMoves [] (setSelectedSquare None
              (setEnPassantTarget newEnPassant
                 (setCastlingRights newCastlingRights (setBoard newBoard s1)))) in
  let newHalfMoveClock :=
    if isPawn movingPiece || isCapture then 0 else halfMoveClock s + 1 in
  let s1 := setHalfMoveClock newHalfMoveClock s1 in
  if newHalfMoveClock >=? 100 then (declareDraw "Fifty-move rule" s1, None) else
  let newPositionString := boardToString newBoard black newCastlingRights newEnPassant in
  let newHistory := positionHistory s ++ [newPositionString] in
  let s1 := setPositionHistory newHistory s1 in
  if countKey newPositionString newHistory >=? 3
  then (declareDraw "Threefold repetition" s1, None) else
  if hasInsufficientMaterial newBoard
  then (declareDraw "Insufficient material" s1, None) else
  let checkBlack := isKingInCheck newBoard black in
  let s1 := setWhiteInCheck false (setBlackInCheck checkBlack s1) in
  if checkBlack
     && checkForCheckmate (enPassantTarget s) (castlingRights s) newBoard black
  then (setIsCheckmate true s1, None) else
  if negb checkBlack
     && checkForStalemate (enPassantTarget s) (castlingRights s) newBoard black
  then (declareDraw "Stalemate" (setIsStalemate true s1), None) else
  (setCurrentTurn black s1,
   Some (mkTimer s newBoard newCastlingRights newEnPassant))
  end.

Definition handleSquareClick (s : State) (r k : Z) : State * option Timer :=
  if negb (color_eqb (currentTurn s) white) || isCheckmate s || isDraw s
     || isSome (promotionSquare s)
  then (s, None)
  else
    match selectedSquare s with
    | Some sel =>
        if existsb (fun m => (row m =? r) && (col m =? k)) (validMoves s)
        then applyHumanMove s sel r k
        else (selectPiece s r k, None)
    | None => (selectPiece s r k, None)
    end.

(** ** handlePromotion (lines 925-956) *)

Definition handlePromotion (s : State) (pieceType : PieceType)
    : State * option Timer :=
  match promotionSquare s with
  | None => (s, None)
  | Some sq =>
      let newBoard := put (board s) (row sq) (col sq) (Some (mkPiece pieceType white)) in
      let s1 := setPromotionSquare None (setBoard newBoard s) in
      let checkBlack := isKingInCheck newBoard black in
      let s1 := setWhiteInCheck false (setBlackInCheck checkBlack s1) in
      if checkBlack
         && checkForCheckmate (enPassantTarget s) (castlingRights s) newBoard black
      then (setIsCheckmate true s1, None)
      else (setCurrentTurn black s1,
            Some (mkTimer s newBoard (castlingRights s) (enPassantTarget s)))
  end.

(** ** handleReset and handleResign (lines 958-987) *)

Definition initialState : State :=
  {| board := initializeBoard; selectedSquare := None; validMoves := [];
     currentTurn := white; capturedWhite := []; capturedBlack := [];
     castlingRights := allRights; enPassantTarget := None;
     promotionSquare := None; whiteInCheck := false; blackInCheck := false;
     isCheckmate := false; isStalemate := false; isDraw := false;
     drawReason := ""; halfMoveClock := 0; positionHistory := [] |}.

Definition handleReset (s : State) : State := initialState.

Definition handleResign (s : State) : State :=
  setDrawReason "White resigned" (setIsCheckmate true s).

(** ** handleHint (lines 989-1047)

    The handler is rebuilt on every render and reads the live state; the
    value it passes to [setHintMove] is the result here, and [rnd] is its
    one [Math.random()] draw.  The timed clearing of the highlight is left
    out. *)

Record Hint : Type := mkHint { hintFrom : Position; hintTo : Position; priority : Z }.

(** The bonus for the captured piece (lines 1010-1014); a king adds
    nothing. *)
Definition pieceValue (t : PieceType) : Z :=
  match t with
  | queen => 9 | rook => 5 | bishop => 3 | knight => 3 | pawn => 1 | king => 0
  end.

(** Lines 1002-1024: ten and the piece value for a capture, five for a
    move that gives check on the plainly moved board. *)
Definition hintPriority (b : Board) (src dst : Position) : Z :=
  (match getAt b dst with
   | Some capturedPiece => 10 + pieceValue (type capturedPiece)
   | None => 0
   end)
  + (if isKingInCheck (put (put b (row dst) (col dst) (getAt b src))
                           (row src) (col src) None) black
     then 5 else 0).

Definition hintCandidates (s : State) : list Hint :=
  flat_map (fun sq =>
              match getAt (board s) sq with
              | Some piece =>
                  if color_eqb (color piece) white
                  then map (fun t => mkHint sq t (hintPriority (board s) sq t))
                           (getValidMoves (enPassantTarget s) (castlingRights s)
                                          sq (board s))
                  else []
              | None => []
              end)
           allSquares.

(** [allMoves.sort((a, b) => b.priority - a.priority)]: the sort is
    stable, so it is the insertion of each move behind the moves that do
    not rank lower. *)
Fixpoint insertByPriority (h : Hint) (l : list Hint) : list Hint :=
  match l with
  | [] => [h]
  | x :: t => if priority x <? priority h then h :: x :: t
              else x :: insertByPriority h t
  end.

Definition sortByPriority (l : list Hint) : list Hint :=
  fold_left (fun acc h => insertByPriority h acc) l [].

(** The value passed to [setHintMove], if any. *)
Definition handleHint (s : State) (rnd : nat) : option Hint :=
  let allMoves := hintCandidates s in
  if (Z.of_nat (List.length allMoves) =? 0) then None
  else
    match sortByPriority allMoves with
    | [] => None
    | top :: rest =>
        pick rnd (filter (fun m => priority m =? priority top) (top :: rest))
    end.

(** ** Running a game

    A human move is a click on the piece and a click on the destination;
    the scheduled opponent move then fires on the state the click left. *)

Definition humanMove (s : State) (src dst : Position) : State * option Timer :=
  handleSquareClick (fst (handleSquareClick s (row src) (col src))) (row dst) (col dst).

Definition reply (rnd : nat) (x : State * option Timer) : State :=
  match snd x with
  | Some t => fire t rnd (fst x)
  | None => fst x
  end.

Definition ply (s : State) (src dst : Position) (rnd : nat) : State :=
  reply rnd (humanMove s src dst).

(** * Definitions used by the statements *)

(** ** Directions and distance to the edge *)

(** One of the eight unit directions of the sliding pieces. *)
Definition isDirection (dr dc : Z) : Prop :=
  (dr = 1 \/ dr = -1 \/ (dr = 0 /\ (dc = 1 \/ dc = -1)))
  /\ (dc = 1 \/ dc = -1 \/ dc = 0).

(** Squares still ahead on the board, the current one included. *)
Definition ahead (r c dr dc : Z) : Z :=
  if dr =? 1 then 8 - r
  else if dr =? -1 then r + 1
  else if dc =? 1 then 8 - c
  else c + 1.

(** ** Classifier and castling conditions *)

(** A rook facing the enemy king along an open rank, its own king aside. *)
Definition rookFacesKing : Board :=
  boardOf [(7, 4, king, white); (0, 0, rook, white); (0, 4, king, black)].

(** The union of the valid moves of every piece of [c] is empty. *)
Definition noLegalMove (ep : option Position) (cr : CastlingRights) (b : Board)
    (c : PieceColor) : bool :=
  match collectMoves ep cr b c with [] => true | _ :: _ => false end.

(** A lone black king in the corner, with a white queen a knight's move
    away: Black has no move, and there is no white king at all. *)
Definition corneredKing : Board :=
  boardOf [(0, 0, king, black); (2, 1, queen, white)].

(** The conditions of the specification for the two castling moves. *)
Definition kingsideCastlingAllowed (cr : CastlingRights) (b : Board)
    (c : PieceColor) : Prop :=
  kingsideRight cr c = true
  /\ get b (baseRowOf c) 5 = None /\ get b (baseRowOf c) 6 = None
  /\ get b (baseRowOf c) 7 = Some (mkPiece rook c)
  /\ isKingInCheck b c = false
  /\ isSquareUnderAttack (mkPos (baseRowOf c) 5) b (opponent c) = false
  /\ isSquareUnderAttack (mkPos (baseRowOf c) 6) b (opponent c) = false.

Definition queensideCastlingAllowed (cr : CastlingRights) (b : Board)
    (c : PieceColor) : Prop :=
  queensideRight cr c = true
  /\ get b (baseRowOf c) 3 = None /\ get b (baseRowOf c) 2 = None
  /\ get b (baseRowOf c) 1 = None
  /\ get b (baseRowOf c) 0 = Some (mkPiece rook c)
  /\ isKingInCheck b c = false
  /\ isSquareUnderAttack (mkPos (baseRowOf c) 3) b (opponent c) = false
  /\ isSquareUnderAttack (mkPos (baseRowOf c) 2) b (opponent c) = false.

(** Kings and white rooks on their home squares, nothing in between. *)
Definition homeRanks : Board :=
  boardOf [(7, 4, king, white); (7, 0, rook, white); (7, 7, rook, white);
           (0, 4, king, black)].

(** ** Endings

    The status line of the component (lines 1069-1082). *)
Inductive Status : Type :=
| Draw (reason : string)
| WhiteResigned
| Checkmate (winner : PieceColor)
| CheckWarning (c : PieceColor)
| ToMove (c : PieceColor).

Definition status (s : State) : Status :=
  if isDraw s then Draw (drawReason s)
  else if isCheckmate s then
    if String.eqb (drawReason s) "White resigned" then WhiteResigned
    else Checkmate (if blackInCheck s then white else black)
  else if whiteInCheck s then CheckWarning white
  else if blackInCheck s then CheckWarning black
  else ToMove (currentTurn s).

(** The reasons recorded by the other endings: checkmate leaves the
    reason empty, the draws write one of four strings. *)
Definition otherReasons : list string :=
  [""%string; "Stalemate"%string; "Fifty-move rule"%string;
   "Threefold repetition"%string; "Insufficient material"%string].

(** ** The opponent's tiers *)

Definition nonEmpty {A : Type} (l : list A) : bool :=
  match l with [] => false | _ :: _ => true end.

(** The moves [chooseMove] draws from, as the source orders its tests:
    the three tiers apply only when Black is in check. *)
Definition preferredMoves (b : Board) (inCheck : bool) (allMoves : list Move)
    : list Move :=
  if inCheck then
    if nonEmpty (filter (isKingMove b) allMoves)
    then filter (isKingMove b) allMoves
    else if nonEmpty (filter (isCaptureMove b) allMoves)
         then filter (isCaptureMove b) allMoves
         else allMoves
  else allMoves.

(** The policy as the specification words it: king moves when in check
    and any exist, else captures when any exist, else all moves. *)
Definition claimedMoves (b : Board) (inCheck : bool) (allMoves : list Move)
    : list Move :=
  if inCheck && nonEmpty (filter (isKingMove b) allMoves)
  then filter (isKingMove b) allMoves
  else if nonEmpty (filter (isCaptureMove b) allMoves)
       then filter (isCaptureMove b) allMoves
       else allMoves.

Definition choosesAsClaimed (ep : option Position) (cr : CastlingRights)
    (b : Board) (rnd : nat) : Prop :=
  collectMoves ep cr b black <> [] ->
  exists m,
    chooseMove rnd b (isKingInCheck b black) (collectMoves ep cr b black) = Some m
    /\ In m (claimedMoves b (isKingInCheck b black) (collectMoves ep cr b black)).

(** Black, not in check, can take the pawn on a7 with the rook. *)
Definition rookCanCapture : Board :=
  boardOf [(7, 4, king, white); (1, 0, pawn, white);
           (0, 0, rook, black); (0, 4, king, black)].

(** Black is in check from the rook on a8, has king moves, and could
    also take the rook. *)
Definition checkedKing : Board :=
  boardOf [(7, 4, king, white); (0, 0, rook, white);
           (0, 4, king, black); (3, 0, rook, black)].

(** White king and two white bishops, both on dark squares, against the
    bare black king. *)
Definition twoBishopsOneSide : Board :=
  boardOf [(7, 4, king, white); (7, 2, bishop, white); (5, 2, bishop, white);
           (0, 4, king, black)].

(** ** Move application *)

(** The capture flag of an applier: a piece on the destination, or an en
    passant hit. *)
Definition captureFlag (p : Piece) (ep : option Position) (r k : Z) (b : Board)
    : bool :=
  snd (enPassantCapture p ep r k b (get b r k)).

(** [(isPawnMove || isCapture) ? 0 : halfMoveClock + 1] *)
Definition nextClock (p : Piece) (isCapture : bool) (clock : Z) : Z :=
  if isPawn p || isCapture then 0 else clock + 1.


(** ** Games from the initial position

    A ply pair is White's move (source and destination click) and the
    random draw of the opponent's reply. *)
Definition Ply : Type := (Position * Position * nat)%type.

Definition playPly (s : State) (p : Ply) : State :=
  match p with (src, dst, rnd) => ply s src dst rnd end.

Definition playGame (plies : list Ply) : State :=
  fold_left playPly plies initialState.

(** 1. a4 h6 2. a5 h5 3. a6 h4 4. axb7, then Black answers g7-g5 or
    Ng8-f6; White's next move is b7xa8 with promotion. *)
Definition pawnRun : list Ply :=
  [(mkPos 6 0, mkPos 4 0, 18%nat); (mkPos 4 0, mkPos 3 0, 17%nat);
   (mkPos 3 0, mkPos 2 0, 19%nat)].

(** After 4... g5: the en passant target is g6. *)
Definition beforePromotionEP : State :=
  playGame (pawnRun ++ [(mkPos 2 0, mkPos 1 1, 19%nat)]).

(** After 4... Nf6: the clock stands at 1. *)
Definition beforePromotionQuiet : State :=
  playGame (pawnRun ++ [(mkPos 2 0, mkPos 1 1, 3%nat)]).

(** White plays b7xa8 and chooses a queen. *)
Definition promote (s : State) : State * option Timer :=
  handlePromotion (fst (humanMove s (mkPos 1 1) (mkPos 0 0))) queen.

(** Is [m] among the moves the scheduled opponent move will draw from? *)
Definition offered (t : option Timer) (m : Move) : bool :=
  match t with
  | Some t =>
      existsb (fun x => pos_eqb (from x) (from m) && pos_eqb (to x) (to m))
              (collectMoves (enPassantTarget (closure t)) (castlingRights (closure t))
                            (argBoard t) black)
  | None => false
  end.

(** 1. Nf3 e5, then 2. Ng1. *)
Definition afterE5 : State := playGame [(mkPos 7 6, mkPos 5 5, 13%nat)].

(** ** Well-formed boards and the scratch board of the legality filter *)

(** Eight rows of eight squares, as [initializeBoard] builds them and every
    copy keeps them. *)
Definition wfBoard (b : Board) : bool :=
  (List.length b =? 8)%nat && forallb (fun r => (List.length r =? 8)%nat) b.

(** No piece of color [c] stands on [m]. *)
Definition emptyOrEnemy (b : Board) (c : PieceColor) (m : Position) : Prop :=
  forall t, getAt b m = Some t -> color t <> c.

(** [color === 'white' ? -1 : 1] and [color === 'white' ? 6 : 1]. *)
Definition forward (c : PieceColor) : Z := match c with white => -1 | black => 1 end.
Definition startRowOf (c : PieceColor) : Z := match c with white => 6 | black => 1 end.

(** The square the simulation empties on an en passant hit (lines 383-384):
    the row behind the landing square, in the landing column. *)
Definition capturedPawnSquare (piece : Piece) (move : Position) : Position :=
  mkPos (match color piece with white => row move + 1 | black => row move - 1 end)
        (col move).

(** The test of lines 381-382: a pawn landing on the en passant target. *)
Definition isEnPassantHit (ep : option Position) (piece : Piece) (move : Position)
    : Prop :=
  type piece = pawn /\ ep = Some move.

(** The test of line 388: a king moving two columns. *)
Definition isCastlingMove (piece : Piece) (pos move : Position) : Prop :=
  type piece = king /\ Z.abs (col move - col pos) = 2.

(** What the scratch board [sb] of a candidate looks like, square by
    square: the source square is empty; the mover stands on the landing
    square (unless the en passant removal has just emptied the mover's own
    square, which needs the target straight ahead of the pawn); on an en
    passant hit the square behind the landing square is empty; on a
    castling move the corner rook stands next to the king's path and the
    corner is empty; every other square is as on [b]. *)
Definition describesScratch (ep : option Position) (pos move : Position)
    (b : Board) (piece : Piece) (sb : Board) : Prop :=
  getAt sb pos = None
  /\ (getAt sb move = Some piece
      \/ (isEnPassantHit ep piece move /\ capturedPawnSquare piece move = pos
          /\ getAt sb move = None))
  /\ (isEnPassantHit ep piece move ->
      getAt sb (capturedPawnSquare piece move) = None)
  /\ (isCastlingMove piece pos move -> col move > col pos ->
      isRook (get b (row pos) 7) = true
      /\ get sb (row pos) 5 = get b (row pos) 7
      /\ get sb (row pos) 7 = None)
  /\ (isCastlingMove piece pos move -> col move < col pos ->
      isRook (get b (row pos) 0) = true
      /\ get sb (row pos) 3 = get b (row pos) 0
      /\ get sb (row pos) 0 = None)
  /\ (forall sq,
        sq <> pos -> sq <> move ->
        (isEnPassantHit ep piece move -> sq <> capturedPawnSquare piece move) ->
        (isCastlingMove piece pos move -> col move > col pos ->
         sq <> mkPos (row pos) 5 /\ sq <> mkPos (row pos) 7) ->
        (isCastlingMove piece pos move -> col move < col pos ->
         sq <> mkPos (row pos) 3 /\ sq <> mkPos (row pos) 0) ->
        getAt sb sq = getAt b sq).

(** ** Definitions for the further properties *)

Definition sliderDirs (t : PieceType) : list (Z * Z) :=
  match t with
  | bishop => diagonals
  | rook => straights
  | queen => queenDirs
  | _ => []
  end.

Definition unitDir (d : Z * Z) : Prop :=
  (fst d = 1 \/ fst d = 0 \/ fst d = -1) /\ (snd d = 1 \/ snd d = 0 \/ snd d = -1)
  /\ (fst d <> 0 \/ snd d <> 0).

Definition negDir (d : Z * Z) : Z * Z := (- fst d, - snd d).

(** Every right of [a] is a right of [b]. *)
Definition rightsLe (a b : CastlingRights) : Prop :=
  (whiteKingside a = true -> whiteKingside b = true)
  /\ (whiteQueenside a = true -> whiteQueenside b = true)
  /\ (blackKingside a = true -> blackKingside b = true)
  /\ (blackQueenside a = true -> blackQueenside b = true).

(** The selection shown to the player is the legal-move list of a white
    piece on the current board. *)
Definition selectionOk (s : State) : Prop :=
  forall sel, selectedSquare s = Some sel ->
    validMoves s = getValidMoves (enPassantTarget s) (castlingRights s) sel (board s)
    /\ exists piece, getAt (board s) sel = Some piece /\ color piece = white.

(** The en passant target, if any, lies directly behind a black piece (it
    was set by Black's double step). *)
Definition targetBehindBlack (s : State) : Prop :=
  forall e, enPassantTarget s = Some e ->
    exists p, getAt (board s) (mkPos (row e + 1) (col e)) = Some p /\ color p = black.

(** The board the click handler installs for a move (lines 743-793). *)
Definition humanBoard (s : State) (sel : Position) (r k : Z) (p : Piece) : Board :=
  let nb := fst (fst (enPassantCapture p (enPassantTarget s) r k (board s)
                                       (get (board s) r k))) in
  let isCastling := type_eqb (type p) king && (Z.abs (k - col sel) =? 2) in
  put (put (castleRook isCastling (row sel) (col sel) k nb) r k (Some p))
      (row sel) (col sel) None.

(** The key of the position a state shows, with [c] to move. *)
Definition keyOf (s : State) (c : PieceColor) : string :=
  boardToString (board s) c (castlingRights s) (enPassantTarget s).

(** The part of the key after the piece list (lines 452-453). *)
Definition contextKey (t : PieceColor) (cr : CastlingRights) (ep : option Position)
    : string :=
  ("|" ++ colorName t ++ "|"
   ++ boolStr (whiteKingside cr) ++ boolStr (whiteQueenside cr)
   ++ boolStr (blackKingside cr) ++ boolStr (blackQueenside cr)
   ++ match ep with
      | Some e => "|ep" ++ numStr (row e) ++ numStr (col e)
      | None => ""
      end)%string.

Definition onBoard (ep : option Position) : Prop :=
  match ep with
  | Some e => isValidSquare (row e) (col e) = true
  | None => True
  end.

Definition descending (l : list Hint) : Prop :=
  StronglySorted (fun a b => priority b <= priority a) l.

(** A white pawn on d5 beside a white knight on e6, with e6 recorded as
    the en passant target. *)
Definition pawnBesideKnight : Board :=
  boardOf [(7, 4, king, white); (0, 4, king, black);
           (3, 3, pawn, white); (2, 4, knight, white)].

(** The initial position with the pawn on e2 selected. *)
Definition e2Selected : State := fst (handleSquareClick initialState 6 4).

(** * Properties *)

(** ** The walks stop by themselves

    A walk over the board in one of the eight directions meets the edge
    after at most eight squares, so [walkFuel] never runs out: more fuel
    gives the same answer. *)

Lemma isValidSquare_true r c :
  isValidSquare r c = true <-> 0 <= r < 8 /\ 0 <= c < 8.
Proof. unfold isValidSquare. rewrite !andb_true_iff. lia. Qed.

Lemma isValidSquare_ahead r c dr dc :
  isDirection dr dc -> isValidSquare r c = true ->
  1 <= ahead r c dr dc /\ ahead (r + dr) (c + dc) dr dc = ahead r c dr dc - 1.
Proof.
  intros [Hr Hc] Hv. apply isValidSquare_true in Hv.
  destruct Hr as [-> | [-> | [-> [-> | ->]]]];
    cbv beta iota delta [ahead Z.eqb Pos.eqb]; lia.
Qed.

Lemma rayAttack_fuel b byColor t1 t2 dr dc :
  isDirection dr dc ->
  forall f1 f2 r c,
    ahead r c dr dc <= Z.of_nat f1 -> ahead r c dr dc <= Z.of_nat f2 ->
    rayAttack f1 b byColor t1 t2 r c dr dc = rayAttack f2 b byColor t1 t2 r c dr dc.
Proof.
  intros Hd. induction f1 as [|f1 IH]; intros f2 r c H1 H2.
  - destruct f2 as [|f2]; [reflexivity|]. cbn [rayAttack].
    destruct (isValidSquare r c) eqn:Hv; [|reflexivity].
    destruct (isValidSquare_ahead r c dr dc Hd Hv). lia.
  - cbn [rayAttack]. destruct (isValidSquare r c) eqn:Hv.
    + destruct (isValidSquare_ahead r c dr dc Hd Hv) as [Hpos Hnext].
      destruct f2 as [|f2]; [lia|]. cbn [rayAttack]. rewrite Hv.
      destruct (get b r c); [reflexivity|]. apply IH; lia.
    + destruct f2; cbn [rayAttack]; [|rewrite Hv]; reflexivity.
Qed.

Lemma slide_fuel b c dr dc :
  isDirection dr dc ->
  forall f1 f2 r k,
    ahead r k dr dc <= Z.of_nat f1 -> ahead r k dr dc <= Z.of_nat f2 ->
    slide f1 b c r k dr dc = slide f2 b c r k dr dc.
Proof.
  intros Hd. induction f1 as [|f1 IH]; intros f2 r k H1 H2.
  - destruct f2 as [|f2]; [reflexivity|]. cbn [slide].
    destruct (isValidSquare r k) eqn:Hv; [|reflexivity].
    destruct (isValidSquare_ahead r k dr dc Hd Hv). lia.
  - cbn [slide]. destruct (isValidSquare r k) eqn:Hv.
    + destruct (isValidSquare_ahead r k dr dc Hd Hv) as [Hpos Hnext].
      destruct f2 as [|f2]; [lia|]. cbn [slide]. rewrite Hv.
      destruct (get b r k); [reflexivity|]. f_equal. apply IH; lia.
    + destruct f2; cbn [slide]; [|rewrite Hv]; reflexivity.
Qed.

(** X19: starting next to a square of the board, the walk of the attack
    test is over within eight steps: more steps change nothing. *)
Lemma walkFuel_enough b byColor t1 t2 r c dr dc n :
  isDirection dr dc -> isValidSquare r c = true ->
  rayAttack (walkFuel + n) b byColor t1 t2 (r + dr) (c + dc) dr dc
  = rayAttack walkFuel b byColor t1 t2 (r + dr) (c + dc) dr dc.
Proof.
  intros Hd Hv. destruct (isValidSquare_ahead r c dr dc Hd Hv) as [_ Hn].
  assert (ahead r c dr dc <= 8).
  { apply isValidSquare_true in Hv. destruct Hd as [Hr Hc].
    destruct Hr as [-> | [-> | [-> [-> | ->]]]];
      cbv beta iota delta [ahead Z.eqb Pos.eqb]; lia. }
  apply rayAttack_fuel; [assumption | |]; unfold walkFuel; lia.
Qed.

Lemma slideFuel_enough b c r k dr dc n :
  isDirection dr dc -> isValidSquare r k = true ->
  slide (walkFuel + n) b c (r + dr) (k + dc) dr dc
  = slide walkFuel b c (r + dr) (k + dc) dr dc.
Proof.
  intros Hd Hv. destruct (isValidSquare_ahead r k dr dc Hd Hv) as [_ Hn].
  assert (ahead r k dr dc <= 8).
  { apply isValidSquare_true in Hv. destruct Hd as [Hr Hc].
    destruct Hr as [-> | [-> | [-> [-> | ->]]]];
      cbv beta iota delta [ahead Z.eqb Pos.eqb]; lia. }
  apply slide_fuel; [assumption | |]; unfold walkFuel; lia.
Qed.

(** ** The legality filter *)

Lemma getValidMoves_In ep cr pos b piece move :
  getAt b pos = Some piece ->
  In move (getValidMoves ep cr pos b) <->
  In move (getPseudoLegalMoves ep cr pos b)
  /\ isKing (getAt b move) = false
  /\ isKingInCheck (simulateMove ep pos move b piece) (color piece) = false.
Proof.
  intros Hp. unfold getValidMoves. rewrite Hp, filter_In.
  unfold keepsKingSafe. destruct (isKing (getAt b move)).
  - split; intros (_ & H); [discriminate | destruct H; discriminate].
  - rewrite negb_true_iff. tauto.
Qed.

(** ** Checkmate and stalemate *)

Lemma noValidMove_collectMoves ep cr b c :
  existsb (hasValidMove ep cr b c) allSquares = false <->
  collectMoves ep cr b c = [].
Proof.
  unfold collectMoves. induction allSquares as [|sq l IH]; cbn [existsb flat_map].
  - tauto.
  - rewrite orb_false_iff, IH. clear IH.
    assert (Hsq : hasValidMove ep cr b c sq = false <->
                  match getAt b sq with
                  | Some piece =>
                      if color_eqb (color piece) c
                      then map (fun t => mkMove sq t) (getValidMoves ep cr sq b)
                      else []
                  | None => []
                  end = []).
    { unfold hasValidMove. destruct (getAt b sq) as [piece|]; [|tauto].
      destruct (color_eqb (color piece) c); cbn [andb]; [|tauto].
      destruct (getValidMoves ep cr sq b); cbn; split; congruence. }
    rewrite Hsq. split.
    + intros [-> ->]. reflexivity.
    + intros H. apply app_eq_nil in H. assumption.
Qed.

Lemma existsb_hasValidMove ep cr b c :
  existsb (hasValidMove ep cr b c) allSquares = negb (noLegalMove ep cr b c).
Proof.
  unfold noLegalMove.
  destruct (existsb (hasValidMove ep cr b c) allSquares) eqn:He.
  - destruct (collectMoves ep cr b c) eqn:Hc; [|reflexivity].
    apply noValidMove_collectMoves in Hc. congruence.
  - apply noValidMove_collectMoves in He. now rewrite He.
Qed.

Lemma checkForCheckmate_eq ep cr b c :
  checkForCheckmate ep cr b c = isKingInCheck b c && noLegalMove ep cr b c.
Proof.
  unfold checkForCheckmate. rewrite existsb_hasValidMove, negb_involutive.
  now destruct (isKingInCheck b c).
Qed.

Lemma checkForStalemate_eq ep cr b c :
  checkForStalemate ep cr b c = negb (isKingInCheck b c) && noLegalMove ep cr b c.
Proof.
  unfold checkForStalemate. rewrite existsb_hasValidMove, negb_involutive.
  now destruct (isKingInCheck b c).
Qed.

(** C2: [checkForCheckmate] and [checkForStalemate] are never both true;
    each needs the union of [getValidMoves] over the pieces of the color
    to be empty, checkmate with [isKingInCheck] true and stalemate with
    [isKingInCheck] false, and that is all they ask. *)
Theorem checkmate_stalemate_exclusive ep cr b c :
  checkForCheckmate ep cr b c && checkForStalemate ep cr b c = false
  /\ checkForCheckmate ep cr b c = isKingInCheck b c && noLegalMove ep cr b c
  /\ checkForStalemate ep cr b c
     = negb (isKingInCheck b c) && noLegalMove ep cr b c.
Proof.
  rewrite checkForCheckmate_eq, checkForStalemate_eq.
  repeat split. now destruct (isKingInCheck b c), (noLegalMove ep cr b c).
Qed.

(** ** Boards without a king *)

Lemma find_hd_filter {A : Type} (f : A -> bool) (l : list A) :
  find f l = hd_error (filter f l).
Proof.
  induction l as [|x l IH]; cbn; [reflexivity|].
  destruct (f x); [reflexivity | exact IH].
Qed.

(** C10: on a board with no king of color [c], [findKing] finds nothing
    and [isKingInCheck] answers [false]; so [checkForCheckmate] is false
    and [checkForStalemate] only asks whether the color has a valid move. *)
Theorem kingless_not_in_check ep cr b c :
  kingSquares b c = [] ->
  findKing b c = None
  /\ isKingInCheck b c = false
  /\ checkForCheckmate ep cr b c = false
  /\ checkForStalemate ep cr b c = noLegalMove ep cr b c.
Proof.
  intros Hno.
  assert (Hf : findKing b c = None).
  { unfold findKing. rewrite find_hd_filter. fold (kingSquares b c).
    now rewrite Hno. }
  assert (Hc : isKingInCheck b c = false) by (unfold isKingInCheck; now rewrite Hf).
  repeat split; try assumption.
  - rewrite checkForCheckmate_eq. now rewrite Hc.
  - rewrite checkForStalemate_eq. now rewrite Hc.
Qed.

Lemma kingless_not_in_check_witness :
  findKing corneredKing white = None
  /\ isKingInCheck corneredKing white = false
  /\ checkForCheckmate None allRights corneredKing white = false
  /\ checkForStalemate None allRights corneredKing white
     = noLegalMove None allRights corneredKing white.
Proof.
  apply (kingless_not_in_check None allRights corneredKing white).
  reflexivity.
Defined.

(** ** Castling *)

Lemma type_eqb_eq a b : type_eqb a b = true <-> a = b.
Proof. destruct a, b; cbn; split; congruence. Qed.

Lemma color_eqb_eq a b : color_eqb a b = true <-> a = b.
Proof. destruct a, b; cbn; split; congruence. Qed.

Lemma color_eqb_opponent a b : color_eqb a b = false <-> a = opponent b.
Proof. destruct a, b; cbn; split; congruence. Qed.

Lemma isNone_true {A : Type} (o : option A) : isNone o = true <-> o = None.
Proof. destruct o; cbn; split; congruence. Qed.

(** The nested tests of the source, read as one conjunction per side. *)
Lemma castlingMoves_In cr b c r k t :
  In t (castlingMoves cr b c r k) <->
  isKingInCheck b c = false /\ r = baseRowOf c /\ k = 4
  /\ ((t = mkPos (baseRowOf c) 6
       /\ kingsideRight cr c = true
       /\ isNone (get b (baseRowOf c) 5) = true
       /\ isNone (get b (baseRowOf c) 6) = true
       /\ isRook (get b (baseRowOf c) 7) = true
       /\ isSquareUnderAttack (mkPos (baseRowOf c) 5) b (opponent c) = false
       /\ isSquareUnderAttack (mkPos (baseRowOf c) 6) b (opponent c) = false)
      \/ (t = mkPos (baseRowOf c) 2
          /\ queensideRight cr c = true
          /\ isNone (get b (baseRowOf c) 3) = true
          /\ isNone (get b (baseRowOf c) 2) = true
          /\ isNone (get b (baseRowOf c) 1) = true
          /\ isRook (get b (baseRowOf c) 0) = true
          /\ isSquareUnderAttack (mkPos (baseRowOf c) 3) b (opponent c) = false
          /\ isSquareUnderAttack (mkPos (baseRowOf c) 2) b (opponent c) = false)).
Proof.
  unfold castlingMoves. cbv zeta.
  destruct (isKingInCheck b c); cbn [negb];
    [cbn; split; [tauto | intros (? & _); discriminate]|].
  destruct (r =? baseRowOf c) eqn:Hr; cbn [andb];
    [apply Z.eqb_eq in Hr | apply Z.eqb_neq in Hr; cbn; tauto].
  destruct (k =? 4) eqn:Hk;
    [apply Z.eqb_eq in Hk | apply Z.eqb_neq in Hk; cbn; tauto].
  rewrite in_app_iff.
  assert (HK : forall (f g h : bool) (x : Position),
             In t (if f then if g then if h then [x] else [] else [] else [])
             <-> t = x /\ f = true /\ g = true /\ h = true).
  { intros f g h x.
    destruct f; [destruct g; [destruct h|]|]; cbn; split;
      try (intros []; fail);
      try (intros (_ & ? & ? & ?); discriminate).
    - intros [H|[]]; auto.
    - intros (-> & _); auto. }
  rewrite !HK, !andb_true_iff, !negb_true_iff. tauto.
Qed.

(** A rook of the other color on the corner, with the squares up to the
    king empty, attacks the king along the rank: the source tests only
    the type of the corner piece, and the check test covers its color. *)
Lemma enemy_rook_kingside_checks b c pc :
  findKing b c = Some (mkPos (baseRowOf c) 4) ->
  get b (baseRowOf c) 5 = None -> get b (baseRowOf c) 6 = None ->
  get b (baseRowOf c) 7 = Some pc ->
  type pc = rook -> color pc = opponent c ->
  isKingInCheck b c = true.
Proof.
  intros Hf H5 H6 H7 Ht Hc. unfold isKingInCheck. rewrite Hf.
  unfold isSquareUnderAttack. apply orb_true_iff. right.
  unfold straights. cbn [existsb fst snd row col].
  apply orb_true_iff. left. unfold walkFuel.
  destruct c; cbn [baseRowOf] in *; cbn -[get]; rewrite H5; cbn -[get];
    rewrite H6; cbn -[get]; rewrite H7, Ht, Hc; reflexivity.
Qed.

Lemma enemy_rook_queenside_checks b c pc :
  findKing b c = Some (mkPos (baseRowOf c) 4) ->
  get b (baseRowOf c) 3 = None -> get b (baseRowOf c) 2 = None ->
  get b (baseRowOf c) 1 = None ->
  get b (baseRowOf c) 0 = Some pc ->
  type pc = rook -> color pc = opponent c ->
  isKingInCheck b c = true.
Proof.
  intros Hf H3 H2 H1 H0 Ht Hc. unfold isKingInCheck. rewrite Hf.
  unfold isSquareUnderAttack. apply orb_true_iff. right.
  unfold straights. cbn [existsb fst snd row col].
  apply orb_true_iff. right. apply orb_true_iff. left. unfold walkFuel.
  destruct c; cbn [baseRowOf] in *; cbn -[get]; rewrite H3; cbn -[get];
    rewrite H2; cbn -[get]; rewrite H1; cbn -[get];
    rewrite H0, Ht, Hc; reflexivity.
Qed.

Lemma steps_In b c r k offs t :
  In t (steps b c r k offs) ->
  exists d, In d offs /\ t = mkPos (r + fst d) (k + snd d).
Proof.
  unfold steps. rewrite in_flat_map. intros (d & Hd & Ht).
  exists d. split; [assumption|].
  destruct (isEmptyOrEnemy b c (r + fst d) (k + snd d)); cbn in Ht;
    [destruct Ht as [<-|[]]; reflexivity | destruct Ht].
Qed.

Lemma king_step_is_short b c r k t :
  In t (steps b c r k queenDirs) -> Z.abs (col t - k) <= 1.
Proof.
  intros H. apply steps_In in H. destruct H as (d & Hd & ->).
  cbn [col]. unfold queenDirs in Hd. cbn [In] in Hd.
  repeat (destruct Hd as [<-|Hd]; [cbn [snd]; lia|]). destruct Hd.
Qed.

Lemma rook_of_color pc c :
  type pc = rook -> color pc = c -> pc = mkPiece rook c.
Proof. destruct pc; cbn; intros -> ->; reflexivity. Qed.

(** C3: for the one king of color [c], standing on [pos], the generator
    produces a two-column king move exactly when the king is on its home
    square and the move is the kingside or queenside castling move whose
    conditions hold: right set, squares between king and rook empty, the
    color's rook on its corner, king not in check, transit and landing
    squares not attacked. *)
Theorem castling_generated_iff ep cr b c pos t :
  kingSquares b c = [pos] ->
  Z.abs (col t - col pos) = 2 ->
  (In t (getPseudoLegalMoves ep cr pos b) <->
   pos = mkPos (baseRowOf c) 4
   /\ ((t = mkPos (baseRowOf c) 6 /\ kingsideCastlingAllowed cr b c)
       \/ (t = mkPos (baseRowOf c) 2 /\ queensideCastlingAllowed cr b c))).
Proof.
  intros Hone Habs.
  assert (Hking : isKingOf b c pos = true).
  { assert (Hin : In pos (kingSquares b c)) by (rewrite Hone; now left).
    unfold kingSquares in Hin. apply filter_In in Hin. tauto. }
  assert (Hfind : findKing b c = Some pos).
  { unfold findKing. rewrite find_hd_filter. fold (kingSquares b c).
    now rewrite Hone. }
  unfold isKingOf in Hking. unfold getPseudoLegalMoves.
  destruct (getAt b pos) as [piece|]; [|discriminate].
  apply andb_true_iff in Hking. destruct Hking as [Hty Hco].
  apply type_eqb_eq in Hty. apply color_eqb_eq in Hco.
  rewrite Hty, Hco. cbv zeta. rewrite in_app_iff, castlingMoves_In.
  unfold kingsideCastlingAllowed, queensideCastlingAllowed.
  rewrite !isNone_true. destruct pos as [r k]. cbn [row col] in *.
  split.
  - intros [Hstep | (Hchk & -> & -> & Hside)].
    + apply king_step_is_short in Hstep. lia.
    + split; [reflexivity|].
      destruct Hside as [(-> & Hfl & H5 & H6 & Hrk & Ha & Hb)
                        | (-> & Hfl & H3 & H2 & H1 & Hrk & Ha & Hb)].
      * left. repeat split; try assumption.
        destruct (get b (baseRowOf c) 7) as [pc|] eqn:H7; [|discriminate].
        cbn in Hrk. apply type_eqb_eq in Hrk.
        destruct (color_eqb (color pc) c) eqn:Hpc.
        -- apply color_eqb_eq in Hpc. f_equal. now apply rook_of_color.
        -- apply color_eqb_opponent in Hpc.
           rewrite (enemy_rook_kingside_checks b c pc) in Hchk;
             [discriminate | assumption..].
      * right. repeat split; try assumption.
        destruct (get b (baseRowOf c) 0) as [pc|] eqn:H0; [|discriminate].
        cbn in Hrk. apply type_eqb_eq in Hrk.
        destruct (color_eqb (color pc) c) eqn:Hpc.
        -- apply color_eqb_eq in Hpc. f_equal. now apply rook_of_color.
        -- apply color_eqb_opponent in Hpc.
           rewrite (enemy_rook_queenside_checks b c pc) in Hchk;
             [discriminate | assumption..].
  - intros (Hpos & Hside). injection Hpos as -> ->. right.
    destruct Hside as [(-> & Hfl & H5 & H6 & Hrk & Hchk & Ha & Hb)
                      | (-> & Hfl & H3 & H2 & H1 & Hrk & Hchk & Ha & Hb)].
    + repeat split; try assumption. left. rewrite Hrk.
      repeat split; assumption.
    + repeat split; try assumption. right. rewrite Hrk.
      repeat split; assumption.
Qed.

Lemma castling_generated_iff_witness :
  In (mkPos 7 6) (getPseudoLegalMoves None allRights (mkPos 7 4) homeRanks) <->
  mkPos 7 4 = mkPos (baseRowOf white) 4
  /\ ((mkPos 7 6 = mkPos (baseRowOf white) 6
       /\ kingsideCastlingAllowed allRights homeRanks white)
      \/ (mkPos 7 6 = mkPos (baseRowOf white) 2
          /\ queensideCastlingAllowed allRights homeRanks white)).
Proof.
  apply (castling_generated_iff None allRights homeRanks white (mkPos 7 4) (mkPos 7 6)).
  - reflexivity.
  - reflexivity.
Defined.

(** Scenario C of the specification: a black rook on the f-file attacks
    the transit square and the kingside castling move is gone; with the
    rook elsewhere it is back. *)
Example castling_blocked_by_attack :
  getValidMoves None allRights (mkPos 7 4) (place homeRanks (3, 5, rook, black))
  = [mkPos 7 3; mkPos 6 4; mkPos 6 3; mkPos 7 2]
  /\ In (mkPos 7 6)
        (getValidMoves None allRights (mkPos 7 4) (place homeRanks (3, 0, rook, black))).
Proof. split; vm_compute; auto 10. Qed.

(** ** The scratch board of the legality filter *)

Lemma indices_In z : In z indices <-> 0 <= z < 8.
Proof. unfold indices. cbn [In]. lia. Qed.

Lemma allSquares_In p : In p allSquares <-> isValidSquare (row p) (col p) = true.
Proof.
  rewrite isValidSquare_true. unfold allSquares. rewrite in_flat_map. split.
  - intros (r & Hr & Hp). apply in_map_iff in Hp. destruct Hp as (k & <- & Hk).
    cbn [row col]. apply indices_In in Hr, Hk. lia.
  - intros [Hr Hk]. exists (row p). split; [now apply indices_In|].
    apply in_map_iff. exists (col p). split; [now destruct p | now apply indices_In].
Qed.

Lemma get_Some_valid b r k pc : get b r k = Some pc -> isValidSquare r k = true.
Proof. unfold get. destruct (isValidSquare r k); [reflexivity | discriminate]. Qed.

Lemma color_eqb_false a b : color_eqb a b = false <-> a <> b.
Proof. destruct a, b; cbn; split; congruence. Qed.

Lemma slide_In fuel b c dr dc : forall r k m,
  In m (slide fuel b c r k dr dc) ->
  exists n : nat,
    m = mkPos (r + Z.of_nat n * dr) (k + Z.of_nat n * dc)
    /\ isValidSquare (row m) (col m) = true
    /\ emptyOrEnemy b c m
    /\ forall j : nat, (j < n)%nat ->
         get b (r + Z.of_nat j * dr) (k + Z.of_nat j * dc) = None.
Proof.
  induction fuel as [|f IH]; intros r k m Hin; [destruct Hin|].
  cbn [slide] in Hin. destruct (isValidSquare r k) eqn:Hv; [|destruct Hin].
  assert (Hhere : m = mkPos r k ->
            m = mkPos (r + Z.of_nat 0 * dr) (k + Z.of_nat 0 * dc)).
  { intros ->. f_equal; lia. }
  destruct (get b r k) as [pc|] eqn:Hg.
  - destruct (color_eqb (color pc) c) eqn:Hc; [destruct Hin|].
    destruct Hin as [<-|[]]. exists 0%nat. split; [now apply Hhere|].
    split; [exact Hv|]. split; [|intros j Hj; lia].
    intros t Ht. unfold getAt in Ht. cbn [row col] in Ht. rewrite Hg in Ht.
    injection Ht as <-. now apply color_eqb_false.
  - destruct Hin as [<-|Hin].
    + exists 0%nat. split; [now apply Hhere|]. split; [exact Hv|].
      split; [|intros j Hj; lia].
      intros t Ht. unfold getAt in Ht. cbn [row col] in Ht. congruence.
    + destruct (IH _ _ _ Hin) as (n & Hm & Hval & Hee & Hpath).
      exists (S n). split; [rewrite Hm; f_equal; lia|].
      split; [assumption|]. split; [assumption|].
      intros [|j] Hj.
      * replace (r + Z.of_nat 0 * dr) with r by lia.
        replace (k + Z.of_nat 0 * dc) with k by lia. assumption.
      * replace (r + Z.of_nat (S j) * dr) with (r + dr + Z.of_nat j * dr) by lia.
        replace (k + Z.of_nat (S j) * dc) with (k + dc + Z.of_nat j * dc) by lia.
        apply Hpath. lia.
Qed.

Lemma slides_In b c r k dirs m :
  In m (slides b c r k dirs) ->
  exists d (n : nat),
    In d dirs /\ (1 <= n)%nat
    /\ m = mkPos (r + Z.of_nat n * fst d) (k + Z.of_nat n * snd d)
    /\ isValidSquare (row m) (col m) = true
    /\ emptyOrEnemy b c m
    /\ forall j : nat, (1 <= j < n)%nat ->
         get b (r + Z.of_nat j * fst d) (k + Z.of_nat j * snd d) = None.
Proof.
  unfold slides. rewrite in_flat_map. intros (d & Hd & Hin).
  apply slide_In in Hin. destruct Hin as (n & Hm & Hv & Hee & Hpath).
  exists d, (S n). split; [assumption|]. split; [lia|].
  split; [rewrite Hm; f_equal; lia|]. split; [assumption|]. split; [assumption|].
  intros j Hj. destruct j as [|j]; [lia|].
  replace (r + Z.of_nat (S j) * fst d) with (r + fst d + Z.of_nat j * fst d) by lia.
  replace (k + Z.of_nat (S j) * snd d) with (k + snd d + Z.of_nat j * snd d) by lia.
  apply Hpath. lia.
Qed.

Lemma isEmptyOrEnemy_true b c r k :
  isEmptyOrEnemy b c r k = true ->
  isValidSquare r k = true /\ emptyOrEnemy b c (mkPos r k).
Proof.
  unfold isEmptyOrEnemy. destruct (isValidSquare r k); [|discriminate].
  intros H. split; [reflexivity|]. intros t Ht. unfold getAt in Ht.
  cbn [row col] in Ht. rewrite Ht in H. apply negb_true_iff in H.
  now apply color_eqb_false.
Qed.

Lemma steps_In' b c r k offs m :
  In m (steps b c r k offs) ->
  exists d, In d offs /\ m = mkPos (r + fst d) (k + snd d)
            /\ isValidSquare (row m) (col m) = true /\ emptyOrEnemy b c m.
Proof.
  unfold steps. rewrite in_flat_map. intros (d & Hd & Hin).
  destruct (isEmptyOrEnemy b c (r + fst d) (k + snd d)) eqn:He; [|destruct Hin].
  destruct Hin as [<-|[]]. apply isEmptyOrEnemy_true in He.
  exists d. cbn [row col]. tauto.
Qed.

Lemma pawnMoves_In ep b c r k m :
  In m (pawnMoves ep b c r k) <->
  (m = mkPos (r + forward c) k
   /\ isValidSquare (r + forward c) k = true /\ get b (r + forward c) k = None)
  \/ (m = mkPos (r + 2 * forward c) k /\ r = startRowOf c
      /\ isValidSquare (r + forward c) k = true
      /\ get b (r + forward c) k = None /\ get b (r + 2 * forward c) k = None)
  \/ (exists off, (off = -1 \/ off = 1) /\ m = mkPos (r + forward c) (k + off)
        /\ isValidSquare (r + forward c) (k + off) = true
        /\ ((exists t, get b (r + forward c) (k + off) = Some t /\ color t <> c)
            \/ ep = Some m)).
Proof.
  unfold pawnMoves. fold (forward c). fold (startRowOf c). cbv zeta.
  rewrite in_app_iff, in_flat_map. split.
  - intros [H | (off & Hoff & H)].
    + destruct (isValidSquare (r + forward c) k) eqn:Hv; [|destruct H].
      cbn [andb] in H.
      destruct (get b (r + forward c) k) eqn:Hg; cbn [isNone] in H; [destruct H|].
      destruct H as [<-|H]; [left; auto|].
      destruct (r =? startRowOf c) eqn:Hr; [|destruct H]. cbn [andb] in H.
      destruct (get b (r + 2 * forward c) k) eqn:Hg2; cbn [isNone] in H; [destruct H|].
      destruct H as [<-|[]]. apply Z.eqb_eq in Hr. right. left. auto.
    + right. right. exists off. split; [cbn [In] in Hoff; lia|].
      destruct (isValidSquare (r + forward c) (k + off)) eqn:Hv; [|destruct H].
      apply in_app_iff in H. destruct H as [H|H].
      * destruct (get b (r + forward c) (k + off)) as [t|] eqn:Hg; [|destruct H].
        destruct (color_eqb (color t) c) eqn:Hc; cbn [negb] in H; [destruct H|].
        destruct H as [<-|[]]. split; [reflexivity|]. split; [reflexivity|].
        left. exists t. split; [reflexivity|]. now apply color_eqb_false.
      * destruct ep as [e|]; [|destruct H].
        destruct ((r + forward c =? row e) && (k + off =? col e)) eqn:He; [|destruct H].
        destruct H as [<-|[]]. split; [reflexivity|]. split; [reflexivity|].
        right. apply andb_true_iff in He. destruct He as [H1 H2].
        apply Z.eqb_eq in H1, H2. destruct e as [er ek]; cbn [row col] in *. now subst.
  - intros [(-> & Hv & Hg) | [(-> & Hr & Hv & Hg & Hg2) | (off & Hoff & -> & Hv & H)]].
    + left. rewrite Hv, Hg. now left.
    + left. rewrite Hv, Hg, Hg2. apply Z.eqb_eq in Hr. rewrite Hr. right. now left.
    + right. exists off. split; [cbn [In]; lia|].
      rewrite Hv. apply in_app_iff. destruct H as [(t & Hg & Hc) | He].
      * left. rewrite Hg. apply color_eqb_false in Hc. rewrite Hc. now left.
      * right. rewrite He. cbn [row col]. rewrite !Z.eqb_refl. now left.
Qed.

Lemma castlingMoves_target cr b c r k m :
  In m (castlingMoves cr b c r k) ->
  isValidSquare (row m) (col m) = true /\ getAt b m = None.
Proof.
  intros H. apply castlingMoves_In in H.
  destruct H as (_ & _ & _ & [(-> & _ & _ & H6 & _) | (-> & _ & _ & H2 & _)]);
    apply isNone_true in H6 || apply isNone_true in H2;
    unfold getAt; cbn [row col]; (split; [destruct c; reflexivity | assumption]).
Qed.

Lemma pseudoLegalMoves_valid ep cr pos b m :
  In m (getPseudoLegalMoves ep cr pos b) ->
  isValidSquare (row m) (col m) = true.
Proof.
  unfold getPseudoLegalMoves. destruct (getAt b pos) as [piece|] eqn:Hp; [|intros []].
  assert (Hpos : isValidSquare (row pos) (col pos) = true)
    by (eapply get_Some_valid, Hp).
  cbv zeta. destruct (type piece).
  - rewrite in_app_iff. intros [H|H].
    + apply steps_In' in H. destruct H as (d & _ & _ & Hv & _). exact Hv.
    + apply castlingMoves_target in H. tauto.
  - intros H. apply slides_In in H. destruct H as (d & n & _ & _ & _ & Hv & _). exact Hv.
  - intros H. apply slides_In in H. destruct H as (d & n & _ & _ & _ & Hv & _). exact Hv.
  - intros H. apply slides_In in H. destruct H as (d & n & _ & _ & _ & Hv & _). exact Hv.
  - intros H. apply steps_In' in H. destruct H as (d & _ & _ & Hv & _). exact Hv.
  - intros H. apply pawnMoves_In in H.
    destruct H as [(-> & Hv & _) | [(-> & Hr & Hv & _) | (off & _ & -> & Hv & _)]];
      cbn [row col]; try assumption.
    apply isValidSquare_true in Hv, Hpos. apply isValidSquare_true.
    destruct (color piece); cbn [forward startRowOf] in *; lia.
Qed.

Lemma updateNth_length {A : Type} (n : nat) (v : A) (l : list A) :
  List.length (updateNth n v l) = List.length l.
Proof.
  revert n. induction l as [|h t IH]; intros [|n]; cbn; try reflexivity.
  now rewrite IH.
Qed.

Lemma nth_updateNth_eq {A : Type} (n : nat) (v d : A) (l : list A) :
  (n < List.length l)%nat -> nth n (updateNth n v l) d = v.
Proof.
  revert n. induction l as [|h t IH]; intros [|n] H; cbn in *; try lia.
  - reflexivity.
  - apply IH. lia.
Qed.

Lemma nth_updateNth_neq {A : Type} (n m : nat) (v d : A) (l : list A) :
  n <> m -> nth n (updateNth m v l) d = nth n l d.
Proof.
  revert n m. induction l as [|h t IH]; intros [|n] [|m] H; cbn; try reflexivity.
  - congruence.
  - apply IH. congruence.
Qed.

Lemma wfBoard_rows b :
  wfBoard b = true ->
  List.length b = 8%nat /\ forall n, (n < 8)%nat -> List.length (nth n b []) = 8%nat.
Proof.
  unfold wfBoard. rewrite andb_true_iff, Nat.eqb_eq, forallb_forall.
  intros [Hl Hr]. split; [assumption|]. intros n Hn.
  apply Nat.eqb_eq, Hr, nth_In. lia.
Qed.

Lemma put_wfBoard b r k v : wfBoard b = true -> wfBoard (put b r k v) = true.
Proof.
  intros Hwf. unfold put. destruct (isValidSquare r k) eqn:Hv; [|assumption].
  pose proof (wfBoard_rows b Hwf) as [Hl Hrows].
  unfold wfBoard in *. apply andb_true_iff in Hwf. destruct Hwf as [_ Hall].
  rewrite updateNth_length, Hl. cbn [Nat.eqb andb].
  apply forallb_forall. intros x Hx.
  apply (In_nth _ _ []) in Hx. destruct Hx as (n & Hn & <-).
  rewrite updateNth_length in Hn.
  destruct (Nat.eq_dec n (Z.to_nat r)) as [->|Hne].
  - rewrite nth_updateNth_eq by lia. rewrite updateNth_length.
    apply Nat.eqb_eq, Hrows. lia.
  - rewrite nth_updateNth_neq by assumption. apply Nat.eqb_eq, Hrows. lia.
Qed.

Lemma get_put b r k v r' k' :
  wfBoard b = true ->
  get (put b r k v) r' k'
  = if isValidSquare r k && (r' =? r) && (k' =? k) then v else get b r' k'.
Proof.
  intros Hwf. pose proof (wfBoard_rows b Hwf) as [Hl Hrows].
  unfold get, put. destruct (isValidSquare r k) eqn:Hv; [|reflexivity].
  cbn [andb]. apply isValidSquare_true in Hv.
  destruct (isValidSquare r' k') eqn:Hv'.
  - apply isValidSquare_true in Hv'.
    destruct (r' =? r) eqn:Hr; cbn [andb].
    + apply Z.eqb_eq in Hr. subst r'.
      rewrite nth_updateNth_eq by lia.
      destruct (k' =? k) eqn:Hk.
      * apply Z.eqb_eq in Hk. subst k'. apply nth_updateNth_eq.
        rewrite Hrows; lia.
      * apply Z.eqb_neq in Hk. apply nth_updateNth_neq. lia.
    + apply Z.eqb_neq in Hr. rewrite nth_updateNth_neq by lia. reflexivity.
  - destruct ((r' =? r) && (k' =? k)) eqn:He; [|reflexivity].
    apply andb_true_iff in He. destruct He as [Hr Hk].
    apply Z.eqb_eq in Hr, Hk. subst.
    assert (isValidSquare r k = true) by (apply isValidSquare_true; assumption).
    congruence.
Qed.

Lemma get_put_same b r k v :
  wfBoard b = true -> isValidSquare r k = true -> get (put b r k v) r k = v.
Proof. intros Hwf Hv. rewrite get_put by assumption. now rewrite Hv, !Z.eqb_refl. Qed.

Lemma get_put_other b r k v r' k' :
  wfBoard b = true -> r' <> r \/ k' <> k ->
  get (put b r k v) r' k' = get b r' k'.
Proof.
  intros Hwf Hne. rewrite get_put by assumption.
  destruct (r' =? r) eqn:Hr; destruct (k' =? k) eqn:Hk;
    rewrite ?andb_false_r; try reflexivity.
  apply Z.eqb_eq in Hr, Hk. lia.
Qed.

Lemma pos_neq (p q : Position) : p <> q -> row p <> row q \/ col p <> col q.
Proof.
  destruct p as [a b], q as [c d]. cbn. intros H.
  destruct (Z.eq_dec a c) as [->|]; [|auto].
  destruct (Z.eq_dec b d) as [->|]; [|auto]. congruence.
Qed.

Lemma pseudoLegalMoves_shape ep cr pos b piece move :
  getAt b pos = Some piece ->
  In move (getPseudoLegalMoves ep cr pos b) ->
  (row move <> row pos \/ col move <> col pos)
  /\ (isCastlingMove piece pos move ->
      col pos = 4 /\ row move = row pos /\ (col move = 6 \/ col move = 2)
      /\ (col move = 6 -> isRook (get b (row pos) 7) = true)
      /\ (col move = 2 -> isRook (get b (row pos) 0) = true)).
Proof.
  intros Hp Hin. pose proof Hin as Hin'.
  unfold getPseudoLegalMoves in Hin. rewrite Hp in Hin. cbv zeta in Hin.
  assert (Hslide : forall dirs, (forall d, In d dirs -> fst d <> 0 \/ snd d <> 0) ->
            In move (slides b (color piece) (row pos) (col pos) dirs) ->
            row move <> row pos \/ col move <> col pos).
  { intros dirs Hd H. apply slides_In in H.
    destruct H as (d & n & Hdin & Hn & -> & _). cbn [row col].
    destruct (Hd d Hdin); [left | right]; nia. }
  assert (Hstep : forall offs, (forall d, In d offs -> fst d <> 0 \/ snd d <> 0) ->
            In move (steps b (color piece) (row pos) (col pos) offs) ->
            row move <> row pos \/ col move <> col pos).
  { intros offs Hd H. apply steps_In' in H.
    destruct H as (d & Hdin & -> & _). cbn [row col].
    destruct (Hd d Hdin); [left | right]; lia. }
  assert (Hq : forall d, In d queenDirs -> fst d <> 0 \/ snd d <> 0).
  { unfold queenDirs. cbn [In]. intros d H.
    repeat (destruct H as [<-|H]; [cbn; lia|]). destruct H. }
  assert (Hs : forall d, In d straights -> fst d <> 0 \/ snd d <> 0).
  { unfold straights. cbn [In]. intros d H.
    repeat (destruct H as [<-|H]; [cbn; lia|]). destruct H. }
  assert (Hdg : forall d, In d diagonals -> fst d <> 0 \/ snd d <> 0).
  { unfold diagonals. cbn [In]. intros d H.
    repeat (destruct H as [<-|H]; [cbn; lia|]). destruct H. }
  assert (Hkn : forall d, In d knightMoves -> fst d <> 0 \/ snd d <> 0).
  { unfold knightMoves. cbn [In]. intros d H.
    repeat (destruct H as [<-|H]; [cbn; lia|]). destruct H. }
  destruct (type piece) eqn:Hty.
  - apply in_app_iff in Hin. destruct Hin as [H|H].
    + split; [now apply (Hstep queenDirs)|].
      intros [_ Habs]. apply king_step_is_short in H. lia.
    + apply castlingMoves_In in H.
      destruct H as (_ & Hr & Hk & [(-> & _ & _ & _ & Hrk & _)
                                  | (-> & _ & _ & _ & _ & Hrk & _)]);
        cbn [row col]; rewrite Hk, Hr; (split; [right; lia|]);
        intros _; repeat split; auto; try lia; intros; lia.
  - split; [now apply (Hslide queenDirs)|]. intros [H _]. congruence.
  - split; [now apply (Hslide straights)|]. intros [H _]. congruence.
  - split; [now apply (Hslide diagonals)|]. intros [H _]. congruence.
  - split; [now apply (Hstep knightMoves)|]. intros [H _]. congruence.
  - split; [|intros [H _]; congruence].
    apply pawnMoves_In in Hin.
    destruct Hin as [(-> & _) | [(-> & _) | (off & _ & -> & _)]]; cbn [row col];
      left; destruct (color piece); cbn [forward]; lia.
Qed.

Lemma classic_hit ep piece move :
  isEnPassantHit ep piece move \/ ~ isEnPassantHit ep piece move.
Proof.
  unfold isEnPassantHit. destruct (type piece); try (right; intros [? _]; discriminate).
  destruct ep as [e|]; [|right; intros [_ ?]; discriminate].
  destruct e as [er ek], move as [mr mk].
  destruct (Z.eq_dec er mr) as [->|]; [|right; intros [_ H]; congruence].
  destruct (Z.eq_dec ek mk) as [->|]; [|right; intros [_ H]; congruence].
  left. auto.
Qed.

Lemma simulateMove_describes ep cr pos b piece move :
  wfBoard b = true ->
  getAt b pos = Some piece ->
  In move (getPseudoLegalMoves ep cr pos b) ->
  describesScratch ep pos move b piece (simulateMove ep pos move b piece).
Proof.
  intros Hwf Hp Hin.
  assert (Hpos : isValidSquare (row pos) (col pos) = true)
    by (eapply get_Some_valid, Hp).
  pose proof (pseudoLegalMoves_valid _ _ _ _ _ Hin) as Hmv.
  destruct (pseudoLegalMoves_shape _ _ _ _ _ _ Hp Hin) as [Hne Hcastle].
  unfold simulateMove. cbv zeta.
  (* en passant removal *)
  match goal with
  | |- context [if _ then _ else ?B1] => set (b1 := B1)
  end.
  match goal with
  | |- context [put (put ?B2 (row move) _ _) _ _ _] => set (b2 := B2)
  end.
  pose (crow := row (capturedPawnSquare piece move)).
  assert (Hb1 : wfBoard b1 = true
                /\ (isEnPassantHit ep piece move -> b1 = put b crow (col move) None)
                /\ (~ isEnPassantHit ep piece move -> b1 = b)).
  { unfold b1, isEnPassantHit, crow, capturedPawnSquare. cbn [row col].
    destruct (type piece) eqn:Hty;
      try (split; [assumption|]; split; [intros [? _]; congruence | reflexivity]).
    destruct ep as [e|];
      [|split; [assumption|]; split; [intros [_ ?]; congruence | reflexivity]].
    destruct ((row move =? row e) && (col move =? col e)) eqn:He.
    - split; [now apply put_wfBoard|]. split; [reflexivity|].
      intros Hno. exfalso. apply Hno. split; [reflexivity|].
      apply andb_true_iff in He. destruct He as [H1 H2].
      apply Z.eqb_eq in H1, H2. destruct e as [er ek], move as [mr mk].
      cbn in *. congruence.
    - split; [assumption|]. split; [|reflexivity].
      intros [_ Heq]. injection Heq as ->.
      rewrite !Z.eqb_refl in He. discriminate. }
  destruct Hb1 as (Hb1wf & Hb1hit & Hb1no).
  assert (Hb1frame : forall r k,
            (isEnPassantHit ep piece move -> r <> crow \/ k <> col move) ->
            get b1 r k = get b r k).
  { intros r k H.
    destruct (classic_hit ep piece move) as [Hh|Hh].
    - rewrite (Hb1hit Hh). apply get_put_other; auto.
    - now rewrite (Hb1no Hh). }
  assert (Hb1cap : isEnPassantHit ep piece move -> get b1 crow (col move) = None).
  { intros Hh. rewrite (Hb1hit Hh). rewrite get_put by assumption.
    destruct (isValidSquare crow (col move)) eqn:Hv.
    - now rewrite !Z.eqb_refl.
    - cbn [andb]. unfold get. now rewrite Hv. }
  (* rook relocation *)
  set (castle := type_eqb (type piece) king && (Z.abs (col move - col pos) =? 2)).
  assert (Hc : castle = true <-> isCastlingMove piece pos move).
  { unfold castle, isCastlingMove.
    rewrite andb_true_iff, type_eqb_eq, Z.eqb_eq. tauto. }
  set (kingside := col move >? col pos).
  assert (Hb2eq : b2 = if castle
                      then put (put b1 (row pos) (if kingside then 5 else 3)
                                    (get b1 (row pos) (if kingside then 7 else 0)))
                               (row pos) (if kingside then 7 else 0) None
                      else b1) by reflexivity.
  clearbody b2. subst b2.
  set (b2 := if castle then _ else b1).
  assert (Hb2wf : wfBoard b2 = true).
  { unfold b2. destruct castle; [|assumption]. now repeat apply put_wfBoard. }
  assert (Hrow : 0 <= row pos < 8) by (apply isValidSquare_true in Hpos; lia).
  assert (Hb2frame : forall r k,
            (isCastlingMove piece pos move ->
             r <> row pos \/ (k <> (if kingside then 5 else 3)
                              /\ k <> (if kingside then 7 else 0))) ->
            get b2 r k = get b1 r k).
  { intros r k H. unfold b2. destruct castle eqn:Hcs; [|reflexivity].
    specialize (H (proj1 Hc eq_refl)).
    rewrite get_put_other by (try apply put_wfBoard; auto; lia).
    apply get_put_other; [assumption | lia]. }
  assert (Hb2pos : get b2 (row pos) (col pos) = get b1 (row pos) (col pos)).
  { apply Hb2frame. intros Hcm. destruct (Hcastle Hcm) as (H4 & _).
    right. destruct kingside; lia. }
  assert (Hsb : forall r k,
            get (put (put b2 (row move) (col move) (get b2 (row pos) (col pos)))
                     (row pos) (col pos) None) r k
            = if (r =? row pos) && (k =? col pos) then None
              else if (r =? row move) && (k =? col move)
                   then get b1 (row pos) (col pos)
                   else get b2 r k).
  { intros r k. rewrite get_put by now apply put_wfBoard.
    rewrite Hpos. cbn [andb].
    destruct ((r =? row pos) && (k =? col pos)); [reflexivity|].
    rewrite get_put by assumption. rewrite Hmv, Hb2pos. reflexivity. }
  unfold describesScratch, getAt. change (row (capturedPawnSquare piece move)) with crow.
  change (col (capturedPawnSquare piece move)) with (col move).
  rewrite !Hsb. rewrite !Z.eqb_refl. cbn [andb].
  assert (Hmp : (row move =? row pos) && (col move =? col pos) = false).
  { apply andb_false_iff. destruct Hne as [H|H]; [left | right];
      now apply Z.eqb_neq. }
  rewrite Hmp.
  split; [reflexivity|]. split; [|split; [|split; [|split]]].
  - (* the mover lands *)
    destruct (classic_hit ep piece move) as [Hh|Hh].
    + rewrite (Hb1hit Hh). rewrite get_put by assumption.
      destruct (isValidSquare crow (col move) && (row pos =? crow)
                && (col pos =? col move)) eqn:He.
      * right. split; [assumption|]. split; [|reflexivity].
        apply andb_true_iff in He. destruct He as [He H2].
        apply andb_true_iff in He. destruct He as [_ H1].
        apply Z.eqb_eq in H1, H2. unfold crow in H1.
        destruct pos as [pr pk]. unfold capturedPawnSquare in *. cbn in *. congruence.
      * left. exact Hp.
    + left. rewrite (Hb1no Hh). exact Hp.
  - (* the captured pawn is gone *)
    intros Hh.
    destruct ((crow =? row pos) && (col move =? col pos)); [reflexivity|].
    assert (Hcm : (crow =? row move) = false).
    { apply Z.eqb_neq.
      unfold crow, capturedPawnSquare. cbn [row]. destruct (color piece); lia. }
    rewrite Hcm. cbn [andb]. rewrite Hb2frame; [now apply Hb1cap|].
    intros [Hk _]. destruct Hh as [Hpw _]. congruence.
  - (* kingside rook *)
    intros Hcm Hgt. destruct (Hcastle Hcm) as (H4 & Hrm & H62 & Hr7 & _).
    assert (H6 : col move = 6) by lia.
    assert (Hks : kingside = true) by (unfold kingside; apply Z.gtb_lt; lia).
    assert (Hnh : ~ isEnPassantHit ep piece move).
    { intros [Hpw _]. destruct Hcm. congruence. }
    split; [now apply Hr7|].
    rewrite H4, H6, Hrm, !Z.eqb_refl. cbn.
    unfold b2. rewrite (proj2 Hc Hcm), Hks.
    rewrite get_put_other by (try apply put_wfBoard; auto; lia).
    rewrite get_put_same;
      [|assumption | apply isValidSquare_true; lia].
    rewrite get_put_same;
      [|now apply put_wfBoard | apply isValidSquare_true; lia].
    rewrite (Hb1no Hnh). split; reflexivity.
  - (* queenside rook *)
    intros Hcm Hlt. destruct (Hcastle Hcm) as (H4 & Hrm & H62 & _ & Hr0).
    assert (H2 : col move = 2) by lia.
    assert (Hks : kingside = false) by (unfold kingside; rewrite Z.gtb_ltb; apply Z.ltb_ge; lia).
    assert (Hnh : ~ isEnPassantHit ep piece move).
    { intros [Hpw _]. destruct Hcm. congruence. }
    split; [now apply Hr0|].
    rewrite H4, H2, Hrm, !Z.eqb_refl. cbn.
    unfold b2. rewrite (proj2 Hc Hcm), Hks.
    rewrite get_put_other by (try apply put_wfBoard; auto; lia).
    rewrite get_put_same;
      [|assumption | apply isValidSquare_true; lia].
    rewrite get_put_same;
      [|now apply put_wfBoard | apply isValidSquare_true; lia].
    rewrite (Hb1no Hnh). split; reflexivity.
  - (* every other square *)
    intros sq Hsp Hsm Hsc Hks Hqs.
    apply pos_neq in Hsp, Hsm.
    assert (H1 : (row sq =? row pos) && (col sq =? col pos) = false).
    { apply andb_false_iff. destruct Hsp; [left | right]; now apply Z.eqb_neq. }
    assert (H2 : (row sq =? row move) && (col sq =? col move) = false).
    { apply andb_false_iff. destruct Hsm; [left | right]; now apply Z.eqb_neq. }
    rewrite Hsb, H1, H2. rewrite Hb2frame.
    + apply Hb1frame. intros Hh. specialize (Hsc Hh).
      apply pos_neq in Hsc. exact Hsc.
    + intros Hcm. destruct (Hcastle Hcm) as (H4 & Hrm & H62 & _).
      destruct (Z.eq_dec (row sq) (row pos)) as [Hr|Hr]; [|now left]. right.
      unfold kingside. destruct H62 as [H6|H6'].
      * assert (Hg : col move > col pos) by lia.
        destruct (Hks Hcm Hg) as [Ha Hb].
        replace (col move >? col pos) with true by (symmetry; apply Z.gtb_lt; lia).
        apply pos_neq in Ha, Hb. cbn [row col] in Ha, Hb. lia.
      * assert (Hl : col move < col pos) by lia.
        destruct (Hqs Hcm Hl) as [Ha Hb].
        replace (col move >? col pos) with false
          by (symmetry; rewrite Z.gtb_ltb; apply Z.ltb_ge; lia).
        apply pos_neq in Ha, Hb. cbn [row col] in Ha, Hb. lia.
Qed.

(** C1: every move returned by [getValidMoves], for any board and any
    square, is a pseudo-legal move of the piece on that square that does
    not land on a king, and on the scratch board of that move the mover's
    king is not attacked by the other color.  On a well-formed board the
    scratch board is the board after the move: the source square empty,
    the mover on the landing square, the pawn behind the landing square
    removed on an en passant hit, the corner rook relocated on a castling
    move, every other square untouched.  A pseudo-legal move onto a
    square holding a king of either color is never returned. *)
Theorem getValidMoves_king_safe ep cr pos b move :
  (In move (getValidMoves ep cr pos b) ->
   exists piece,
     getAt b pos = Some piece
     /\ In move (getPseudoLegalMoves ep cr pos b)
     /\ isKingInCheck (simulateMove ep pos move b piece) (color piece) = false
     /\ (forall kingPos,
           findKing (simulateMove ep pos move b piece) (color piece) = Some kingPos ->
           isSquareUnderAttack kingPos (simulateMove ep pos move b piece)
                               (opponent (color piece)) = false)
     /\ isKing (getAt b move) = false
     /\ (wfBoard b = true ->
         describesScratch ep pos move b piece (simulateMove ep pos move b piece)))
  /\ (In move (getPseudoLegalMoves ep cr pos b) ->
      isKing (getAt b move) = true ->
      ~ In move (getValidMoves ep cr pos b)).
Proof.
  split.
  - intros Hin. destruct (getAt b pos) as [piece|] eqn:Hp.
    + exists piece. split; [reflexivity|].
      apply (getValidMoves_In ep cr pos b piece move Hp) in Hin.
      destruct Hin as (Hps & Hk & Hsafe).
      split; [assumption|]. split; [assumption|]. split; [|split; [assumption|]].
      * intros kingPos Hf. unfold isKingInCheck in Hsafe. now rewrite Hf in Hsafe.
      * intros Hwf. now apply (simulateMove_describes ep cr).
    + unfold getValidMoves in Hin. rewrite Hp in Hin. destruct Hin.
  - intros _ Hk Hin. destruct (getAt b pos) as [piece|] eqn:Hp.
    + apply (getValidMoves_In ep cr pos b piece move Hp) in Hin.
      destruct Hin as (_ & Hk' & _). congruence.
    + unfold getValidMoves in Hin. rewrite Hp in Hin. destruct Hin.
Qed.

Lemma getValidMoves_king_safe_witness :
  (exists piece,
     getAt homeRanks (mkPos 7 4) = Some piece
     /\ In (mkPos 7 6) (getPseudoLegalMoves None allRights (mkPos 7 4) homeRanks)
     /\ isKingInCheck (simulateMove None (mkPos 7 4) (mkPos 7 6) homeRanks piece)
                      (color piece) = false
     /\ isKing (getAt homeRanks (mkPos 7 6)) = false
     /\ describesScratch None (mkPos 7 4) (mkPos 7 6) homeRanks piece
                         (simulateMove None (mkPos 7 4) (mkPos 7 6) homeRanks piece))
  /\ ~ In (mkPos 0 4) (getValidMoves None allRights (mkPos 0 0) rookFacesKing).
Proof.
  split.
  - destruct (getValidMoves_king_safe None allRights (mkPos 7 4) homeRanks (mkPos 7 6))
      as [H _].
    destruct H as (piece & Hp & Hps & Hsafe & _ & Hk & Hsb).
    + vm_compute. auto 10.
    + exists piece. split; [assumption|]. split; [assumption|].
      split; [assumption|]. split; [assumption|]. apply Hsb. reflexivity.
  - apply (getValidMoves_king_safe None allRights (mkPos 0 0) rookFacesKing (mkPos 0 4)).
    + vm_compute. auto 10.
    + reflexivity.
Defined.

(** ** Resignation *)

(** C9: resigning a game in progress records the reason White resigned,
    which no other ending records, and shows it instead of a checkmate or
    a draw; the position, the side to move, the clock and the history are
    untouched, no opponent move is scheduled, and later clicks are
    ignored. *)
Theorem resignation_is_immediate s :
  isCheckmate s = false -> isDraw s = false ->
  status (handleResign s) = WhiteResigned
  /\ drawReason (handleResign s) = "White resigned"%string
  /\ ~ In (drawReason (handleResign s)) otherReasons
  /\ isCheckmate (handleResign s) = true
  /\ board (handleResign s) = board s
  /\ currentTurn (handleResign s) = currentTurn s
  /\ castlingRights (handleResign s) = castlingRights s
  /\ enPassantTarget (handleResign s) = enPassantTarget s
  /\ halfMoveClock (handleResign s) = halfMoveClock s
  /\ positionHistory (handleResign s) = positionHistory s
  /\ capturedWhite (handleResign s) = capturedWhite s
  /\ capturedBlack (handleResign s) = capturedBlack s
  /\ (forall r k, handleSquareClick (handleResign s) r k = (handleResign s, None)).
Proof.
  intros Hm Hd. unfold status, handleResign. cbn. rewrite Hd.
  repeat split; try reflexivity.
  - unfold otherReasons. cbn. intros H.
    repeat (destruct H as [H|H]; [discriminate|]). exact H.
  - intros r k. unfold handleSquareClick. cbn.
    now rewrite orb_true_r.
Qed.

Lemma resignation_is_immediate_witness :
  status (handleResign initialState) = WhiteResigned
  /\ drawReason (handleResign initialState) = "White resigned"%string
  /\ ~ In (drawReason (handleResign initialState)) otherReasons
  /\ isCheckmate (handleResign initialState) = true
  /\ board (handleResign initialState) = board initialState
  /\ currentTurn (handleResign initialState) = currentTurn initialState
  /\ castlingRights (handleResign initialState) = castlingRights initialState
  /\ enPassantTarget (handleResign initialState) = enPassantTarget initialState
  /\ halfMoveClock (handleResign initialState) = halfMoveClock initialState
  /\ positionHistory (handleResign initialState) = positionHistory initialState
  /\ capturedWhite (handleResign initialState) = capturedWhite initialState
  /\ capturedBlack (handleResign initialState) = capturedBlack initialState
  /\ (forall r k,
        handleSquareClick (handleResign initialState) r k
        = (handleResign initialState, None)).
Proof.
  apply (resignation_is_immediate initialState); reflexivity.
Defined.

(** ** The opponent's choice *)

Lemma length_pos_nonEmpty {A : Type} (l : list A) :
  (0 <? Z.of_nat (List.length l)) = nonEmpty l.
Proof. destruct l; reflexivity. Qed.

Lemma chooseMove_pick rnd b inCheck allMoves :
  chooseMove rnd b inCheck allMoves = pick rnd (preferredMoves b inCheck allMoves).
Proof.
  unfold chooseMove, preferredMoves. rewrite !length_pos_nonEmpty.
  destruct inCheck; [|reflexivity].
  destruct (nonEmpty (filter (isKingMove b) allMoves)); [reflexivity|].
  destruct (nonEmpty (filter (isCaptureMove b) allMoves)); reflexivity.
Qed.

Lemma pick_In {A : Type} (rnd : nat) (l : list A) :
  l <> [] -> exists x, pick rnd l = Some x /\ In x l.
Proof.
  intros Hl. unfold pick.
  assert (Hlt : (rnd mod List.length l < List.length l)%nat).
  { apply Nat.mod_upper_bound. destruct l; [congruence | discriminate]. }
  destruct (nth_error l (rnd mod List.length l)) as [x|] eqn:Hx.
  - exists x. split; [reflexivity|]. eapply nth_error_In, Hx.
  - apply nth_error_None in Hx. lia.
Qed.

Lemma pick_every {A : Type} (l : list A) (x : A) :
  In x l -> exists rnd, pick rnd l = Some x.
Proof.
  intros Hin. apply In_nth_error in Hin. destruct Hin as [n Hn].
  exists n. unfold pick. rewrite Nat.mod_small; [assumption|].
  apply nth_error_Some. congruence.
Qed.

Lemma preferredMoves_nonEmpty b inCheck allMoves :
  allMoves <> [] -> preferredMoves b inCheck allMoves <> [].
Proof.
  intros Hall. unfold preferredMoves. destruct inCheck; [|assumption].
  destruct (filter (isKingMove b) allMoves) eqn:Hk; cbn [nonEmpty];
    [|discriminate].
  destruct (filter (isCaptureMove b) allMoves) eqn:Hc; cbn [nonEmpty];
    [assumption | discriminate].
Qed.

(** C8, counterexample: not in check, with a capture at hand, the selector
    may play a quiet rook move. *)
Lemma opponent_may_skip_capture :
  ~ choosesAsClaimed None allRights rookCanCapture 0.
Proof.
  unfold choosesAsClaimed. intros H.
  destruct H as (m & Hm & Hin); [vm_compute; discriminate|].
  vm_compute in Hm. injection Hm as <-.
  vm_compute in Hin. destruct Hin as [Hin|[]]. discriminate.
Qed.

Lemma nonEmpty_filter_In {A : Type} (f : A -> bool) (l : list A) :
  nonEmpty (filter f l) = true <-> exists x, In x l /\ f x = true.
Proof.
  split.
  - destruct (filter f l) as [|x t] eqn:Hf; [discriminate|]. intros _.
    exists x. apply filter_In. rewrite Hf. now left.
  - intros (x & Hx). apply filter_In in Hx.
    destruct (filter f l); [destruct Hx | reflexivity].
Qed.

Lemma preferredMoves_In b inCheck allMoves m :
  In m (preferredMoves b inCheck allMoves) ->
  In m allMoves
  /\ (inCheck = true ->
      (exists k, In k allMoves /\ isKingMove b k = true) ->
      isKingMove b m = true)
  /\ (inCheck = true ->
      (forall k, In k allMoves -> isKingMove b k = false) ->
      (exists k, In k allMoves /\ isCaptureMove b k = true) ->
      isCaptureMove b m = true).
Proof.
  unfold preferredMoves. intros Hin. destruct inCheck.
  - destruct (nonEmpty (filter (isKingMove b) allMoves)) eqn:Hk.
    + apply filter_In in Hin. destruct Hin as [Hin Hm].
      split; [assumption|]. split.
      * intros _ _. assumption.
      * intros _ Hno _. rewrite (Hno m Hin) in Hm. discriminate.
    + assert (Hnone : ~ exists k, In k allMoves /\ isKingMove b k = true).
      { intros Hex. apply nonEmpty_filter_In in Hex. congruence. }
      destruct (nonEmpty (filter (isCaptureMove b) allMoves)) eqn:Hc.
      * apply filter_In in Hin. destruct Hin as [Hin Hm].
        split; [assumption|]. split.
        -- intros _ Hex. contradiction.
        -- intros _ _ _. assumption.
      * split; [assumption|]. split.
        -- intros _ Hex. contradiction.
        -- intros _ _ Hex. apply nonEmpty_filter_In in Hex. congruence.
  - split; [assumption|]. split; discriminate.
Qed.

(** C8, amended: whenever Black has a legal move the selector returns a
    legal move; if Black is in check it is a king move when a legal king
    move exists, else a move onto an occupied square when one exists; in
    every other case, in particular whenever Black is not in check, it is
    drawn from all legal moves, captures getting no preference; and every
    move of the tier drawn from can come out. *)
Theorem chooseMove_policy ep cr b rnd :
  collectMoves ep cr b black <> [] ->
  (exists m,
     chooseMove rnd b (isKingInCheck b black) (collectMoves ep cr b black) = Some m
     /\ In m (collectMoves ep cr b black)
     /\ (isKingInCheck b black = true ->
         (exists k, In k (collectMoves ep cr b black) /\ isKingMove b k = true) ->
         isKingMove b m = true)
     /\ (isKingInCheck b black = true ->
         (forall k, In k (collectMoves ep cr b black) -> isKingMove b k = false) ->
         (exists k, In k (collectMoves ep cr b black) /\ isCaptureMove b k = true) ->
         isCaptureMove b m = true))
  /\ (forall m,
        In m (preferredMoves b (isKingInCheck b black) (collectMoves ep cr b black)) ->
        exists rnd',
          chooseMove rnd' b (isKingInCheck b black) (collectMoves ep cr b black)
          = Some m)
  /\ (isKingInCheck b black = false ->
      forall m, In m (collectMoves ep cr b black) ->
      exists rnd',
        chooseMove rnd' b (isKingInCheck b black) (collectMoves ep cr b black)
        = Some m).
Proof.
  intros Hall. split; [|split].
  - rewrite chooseMove_pick.
    destruct (pick_In rnd _ (preferredMoves_nonEmpty b (isKingInCheck b black) _ Hall))
      as (m & Hm & Hin).
    exists m. split; [assumption|]. now apply preferredMoves_In.
  - intros m Hin. destruct (pick_every _ m Hin) as [rnd' Hr].
    exists rnd'. now rewrite chooseMove_pick.
  - intros Hno m Hin. rewrite Hno.
    destruct (pick_every (collectMoves ep cr b black) m Hin) as [rnd' Hr].
    exists rnd'. now rewrite chooseMove_pick.
Qed.

Lemma chooseMove_policy_witness :
  exists m,
    chooseMove 0 checkedKing (isKingInCheck checkedKing black)
               (collectMoves None allRights checkedKing black) = Some m
    /\ In m (collectMoves None allRights checkedKing black)
    /\ isKingMove checkedKing m = true.
Proof.
  destruct (chooseMove_policy None allRights checkedKing 0)
    as [(m & Hm & Hin & Hking & _) _].
  - vm_compute. discriminate.
  - exists m. split; [assumption|]. split; [assumption|].
    apply Hking.
    + vm_compute. reflexivity.
    + exists (mkMove (mkPos 0 4) (mkPos 1 3)). split.
      * vm_compute. auto 20.
      * vm_compute. reflexivity.
Defined.

(** ** Insufficient material *)


(** C5, the code at the failing input: with one king per color and two
    bishops of the same color on same-colored squares, which is not king
    and bishop against king and bishop, [hasInsufficientMaterial] answers
    [true]. *)
Theorem two_bishops_one_side_insufficient :
  kingSquares twoBishopsOneSide white = [mkPos 7 4]
  /\ kingSquares twoBishopsOneSide black = [mkPos 0 4]
  /\ nonKingPieces twoBishopsOneSide = [mkPiece bishop white; mkPiece bishop white]
  /\ hasInsufficientMaterial twoBishopsOneSide = true.
Proof. repeat apply conj; vm_compute; reflexivity. Qed.

(** ** Move application

    On its normal path the click handler resets or advances the clock,
    sets or clears the en passant target and appends one key.  The
    promotion branch returns before any of that, and the opponent's
    applier works from the clock and the history of its closure. *)

Lemma applyHumanMove_updates s sel r k p :
  get (board s) (row sel) (col sel) = Some p ->
  isKing (get (board s) r k) = false ->
  (isPawn p && (r =? 0)) = false ->
  halfMoveClock (fst (applyHumanMove s sel r k))
  = nextClock p (captureFlag p (enPassantTarget s) r k (board s)) (halfMoveClock s)
  /\ enPassantTarget (fst (applyHumanMove s sel r k))
     = doubleStepTarget p (row sel) (col sel) r
  /\ ((halfMoveClock (fst (applyHumanMove s sel r k)) <? 100) = true ->
      exists key,
        positionHistory (fst (applyHumanMove s sel r k)) = positionHistory s ++ [key]).
Proof.
  intros Hp Hk Hpromo. unfold applyHumanMove, captureFlag, nextClock.
  rewrite Hp, Hk.
  destruct (enPassantCapture p (enPassantTarget s) r k (board s) (get (board s) r k))
    as [[nb cp] ic].
  cbn [snd]. rewrite Hpromo.
  set (clock := if isPawn p || ic then 0 else halfMoveClock s + 1).
  destruct (clock >=? 100) eqn:Hc.
  - cbn. repeat split. intros Hlt. destruct cp; [destruct ic|]; cbn in *; lia.
  - repeat match goal with
           | |- context [if ?c then _ else _] => destruct c
           end; cbn; repeat split; intros _; eexists; reflexivity.
Qed.

(** X9: the promotion branch of the click handler records the promotion
    square and schedules nothing; clock, en passant target and history
    stay as they were. *)
Lemma applyHumanMove_promotion s sel r k p :
  get (board s) (row sel) (col sel) = Some p ->
  isKing (get (board s) r k) = false ->
  (isPawn p && (r =? 0)) = true ->
  halfMoveClock (fst (applyHumanMove s sel r k)) = halfMoveClock s
  /\ enPassantTarget (fst (applyHumanMove s sel r k)) = enPassantTarget s
  /\ positionHistory (fst (applyHumanMove s sel r k)) = positionHistory s
  /\ promotionSquare (fst (applyHumanMove s sel r k)) = Some (mkPos r k)
  /\ snd (applyHumanMove s sel r k) = None.
Proof.
  intros Hp Hk Hpromo. unfold applyHumanMove. rewrite Hp, Hk.
  destruct (enPassantCapture p (enPassantTarget s) r k (board s) (get (board s) r k))
    as [[nb cp] ic].
  rewrite Hpromo. cbn. repeat split.
Qed.

Lemma handlePromotion_keeps s pieceType :
  halfMoveClock (fst (handlePromotion s pieceType)) = halfMoveClock s
  /\ enPassantTarget (fst (handlePromotion s pieceType)) = enPassantTarget s
  /\ positionHistory (fst (handlePromotion s pieceType)) = positionHistory s.
Proof.
  unfold handlePromotion. destruct (promotionSquare s); [|cbn; auto].
  match goal with |- context [if ?c then _ else _] => destruct c end;
    cbn; auto.
Qed.

Lemma makeAIMove_clock_from_closure cl rnd b cr ep live :
  halfMoveClock (makeAIMove cl rnd b cr ep live) = halfMoveClock live
  \/ halfMoveClock (makeAIMove cl rnd b cr ep live) = 0
  \/ halfMoveClock (makeAIMove cl rnd b cr ep live) = halfMoveClock cl + 1.
Proof.
  unfold makeAIMove.
  repeat match goal with
         | |- context [match ?x with _ => _ end] => destruct x
         end; cbn; auto.
Qed.

Lemma makeAIMove_history_from_closure cl rnd b cr ep live :
  positionHistory (makeAIMove cl rnd b cr ep live) = positionHistory live
  \/ exists key,
       positionHistory (makeAIMove cl rnd b cr ep live) = positionHistory cl ++ [key].
Proof.
  unfold makeAIMove.
  repeat match goal with
         | |- context [match ?x with _ => _ end] => destruct x
         end; cbn; eauto.
Qed.

(** *** Concrete games *)

(** C4, the code at the failing input: Black's g7-g5 sets the target g6;
    White's promoting move b7xa8 is applied without clearing it, so after
    the promotion the state still holds g6 and the opponent is offered
    f7-g6, two plies after the double step.  Likewise after 1. Nf3 e5
    2. Ng1 the opponent's move generator still sees e6 and offers and
    plays d7-e6, a diagonal pawn move onto an empty square. *)
Theorem enPassantTarget_survives_promotion :
  enPassantTarget beforePromotionEP = Some (mkPos 2 6)
  /\ getAt (board beforePromotionEP) (mkPos 1 1) = Some (mkPiece pawn white)
  /\ promotionSquare (fst (humanMove beforePromotionEP (mkPos 1 1) (mkPos 0 0)))
     = Some (mkPos 0 0)
  /\ enPassantTarget (fst (humanMove beforePromotionEP (mkPos 1 1) (mkPos 0 0)))
     = Some (mkPos 2 6)
  /\ getAt (board (fst (promote beforePromotionEP))) (mkPos 0 0)
     = Some (mkPiece queen white)
  /\ currentTurn (fst (promote beforePromotionEP)) = black
  /\ enPassantTarget (fst (promote beforePromotionEP)) = Some (mkPos 2 6)
  /\ offered (snd (promote beforePromotionEP)) (mkMove (mkPos 1 5) (mkPos 2 6)) = true
  /\ enPassantTarget afterE5 = Some (mkPos 2 4)
  /\ enPassantTarget (fst (humanMove afterE5 (mkPos 5 5) (mkPos 7 6))) = None
  /\ offered (snd (humanMove afterE5 (mkPos 5 5) (mkPos 7 6)))
             (mkMove (mkPos 1 3) (mkPos 2 4)) = true
  /\ getAt (board (ply afterE5 (mkPos 5 5) (mkPos 7 6) 23)) (mkPos 2 4)
     = Some (mkPiece pawn black)
  /\ capturedWhite (ply afterE5 (mkPos 5 5) (mkPos 7 6) 23) = [].
Proof. repeat apply conj; vm_compute; reflexivity. Qed.

(** C6, the code at the failing input: after 1. Nf3 the clock is 1, and
    after the quiet reply Nb8-a6 it is still 1, not 2; and with the clock
    at 1, the pawn move b7xa8 with promotion, a capture as well, leaves it
    at 1, not 0. *)
Theorem halfMoveClock_not_previous_plus_one :
  halfMoveClock initialState = 0
  /\ halfMoveClock (fst (humanMove initialState (mkPos 7 6) (mkPos 5 5))) = 1
  /\ halfMoveClock (ply initialState (mkPos 7 6) (mkPos 5 5) 0) = 1
  /\ getAt (board (ply initialState (mkPos 7 6) (mkPos 5 5) 0)) (mkPos 2 0)
     = Some (mkPiece knight black)
  /\ capturedWhite (ply initialState (mkPos 7 6) (mkPos 5 5) 0) = []
  /\ halfMoveClock beforePromotionQuiet = 1
  /\ getAt (board beforePromotionQuiet) (mkPos 1 1) = Some (mkPiece pawn white)
  /\ getAt (board beforePromotionQuiet) (mkPos 0 0) = Some (mkPiece rook black)
  /\ halfMoveClock (fst (humanMove beforePromotionQuiet (mkPos 1 1) (mkPos 0 0))) = 1
  /\ halfMoveClock (fst (promote beforePromotionQuiet)) = 1
  /\ currentTurn (fst (promote beforePromotionQuiet)) = black.
Proof. repeat apply conj; vm_compute; reflexivity. Qed.

(** C7, the code at the failing input: 1. Nf3 appends White's key, and the
    reply Nb8-a6 replaces the history by the one before 1. Nf3 plus its
    own key, so two applied moves leave one entry and White's key is
    gone; and the promoting move b7xa8 appends no key at all. *)
Theorem positionHistory_loses_keys :
  positionHistory (fst (humanMove initialState (mkPos 7 6) (mkPos 5 5)))
  = [boardToString (board (fst (humanMove initialState (mkPos 7 6) (mkPos 5 5))))
                   black allRights None]
  /\ positionHistory (ply initialState (mkPos 7 6) (mkPos 5 5) 0)
     = [boardToString (board (ply initialState (mkPos 7 6) (mkPos 5 5) 0))
                      white allRights None]
  /\ List.length (positionHistory (ply initialState (mkPos 7 6) (mkPos 5 5) 0)) = 1%nat
  /\ List.length (positionHistory beforePromotionQuiet) = 4%nat
  /\ positionHistory (fst (humanMove beforePromotionQuiet (mkPos 1 1) (mkPos 0 0)))
     = positionHistory beforePromotionQuiet
  /\ positionHistory (fst (promote beforePromotionQuiet))
     = positionHistory beforePromotionQuiet.
Proof. repeat apply conj; vm_compute; reflexivity. Qed.

(** ** Further properties of the engine *)

(** X1: when [findKing] returns a square, that square is on the board,
    holds a king of the color and is the first such square in scan order;
    it returns nothing exactly when no square holds a king of the
    color. *)
Theorem findKing_spec b c :
  (forall p, findKing b c = Some p ->
     getAt b p = Some (mkPiece king c)
     /\ isValidSquare (row p) (col p) = true
     /\ hd_error (kingSquares b c) = Some p)
  /\ (findKing b c = None <-> forall p, getAt b p <> Some (mkPiece king c)).
Proof.
  split.
  - intros p Hf. pose proof Hf as Hh. unfold findKing in Hf.
    apply find_some in Hf. destruct Hf as [Hin Hk].
    unfold isKingOf in Hk. destruct (getAt b p) as [pc|] eqn:Hg; [|discriminate].
    apply andb_true_iff in Hk. destruct Hk as [Ht Hc].
    apply type_eqb_eq in Ht. apply color_eqb_eq in Hc.
    repeat apply conj.
    + destruct pc; cbn in *; subst; reflexivity.
    + now apply allSquares_In.
    + unfold findKing in Hh. now rewrite find_hd_filter in Hh.
  - split.
    + intros Hf p Hg. unfold findKing in Hf.
      assert (Hin : In p allSquares).
      { apply allSquares_In. unfold getAt in Hg. eapply get_Some_valid, Hg. }
      pose proof (find_none _ _ Hf p Hin) as Hk. unfold isKingOf in Hk.
      rewrite Hg in Hk. cbn in Hk. destruct c; discriminate.
    + intros Hno. unfold findKing. destruct (find (isKingOf b c) allSquares) as [p|] eqn:Hf;
        [|reflexivity].
      apply find_some in Hf. destruct Hf as [_ Hk]. unfold isKingOf in Hk.
      destruct (getAt b p) as [pc|] eqn:Hg; [|discriminate].
      apply andb_true_iff in Hk. destruct Hk as [Ht Hc].
      apply type_eqb_eq in Ht. apply color_eqb_eq in Hc.
      exfalso. apply (Hno p). destruct pc; cbn in *; subst; assumption.
Qed.

(** X2: the move list gathered over the board holds exactly the pairs of
    a square with a piece of the color and one of that piece's valid
    moves. *)
Lemma collectMoves_In ep cr b c m :
  In m (collectMoves ep cr b c) <->
  exists piece, getAt b (from m) = Some piece /\ color piece = c
                /\ In (to m) (getValidMoves ep cr (from m) b).
Proof.
  unfold collectMoves. rewrite in_flat_map. split.
  - intros (sq & Hsq & Hm). destruct (getAt b sq) as [piece|] eqn:Hg; [|destruct Hm].
    destruct (color_eqb (color piece) c) eqn:Hc; [|destruct Hm].
    apply in_map_iff in Hm. destruct Hm as (t & <- & Ht). cbn [from to].
    exists piece. apply color_eqb_eq in Hc. auto.
  - intros (piece & Hg & Hc & Ht). exists (from m). split.
    + apply allSquares_In. unfold getAt in Hg. eapply get_Some_valid, Hg.
    + rewrite Hg. apply color_eqb_eq in Hc. rewrite Hc. apply in_map_iff.
      exists (to m). split; [now destruct m | assumption].
Qed.

(** X4: a pseudo-legal move lands on a piece of the mover's own color
    only through the en passant clause of a pawn, on the recorded target;
    with no target recorded it never does. *)
Theorem pseudoLegalMoves_own_piece_only_en_passant ep cr pos b piece m t :
  getAt b pos = Some piece ->
  In m (getPseudoLegalMoves ep cr pos b) ->
  getAt b m = Some t -> color t = color piece ->
  type piece = pawn /\ ep = Some m.
Proof.
  intros Hp Hin Ht Hc. unfold getPseudoLegalMoves in Hin. rewrite Hp in Hin.
  cbv zeta in Hin.
  assert (Hee : emptyOrEnemy b (color piece) m -> False).
  { intros H. exact (H t Ht Hc). }
  destruct (type piece) eqn:Hty.
  - apply in_app_iff in Hin. destruct Hin as [H|H].
    + apply steps_In' in H. destruct H as (d & _ & _ & _ & He). now destruct Hee.
    + apply castlingMoves_target in H. destruct H as [_ H]. congruence.
  - apply slides_In in Hin. destruct Hin as (d & n & _ & _ & _ & _ & He & _).
    now destruct Hee.
  - apply slides_In in Hin. destruct Hin as (d & n & _ & _ & _ & _ & He & _).
    now destruct Hee.
  - apply slides_In in Hin. destruct Hin as (d & n & _ & _ & _ & _ & He & _).
    now destruct Hee.
  - apply steps_In' in Hin. destruct Hin as (d & _ & _ & _ & He). now destruct Hee.
  - split; [reflexivity|]. apply pawnMoves_In in Hin.
    unfold getAt in Ht.
    destruct Hin as [(-> & _ & Hg) | [(-> & _ & _ & _ & Hg) | (off & _ & -> & _ & H)]];
      cbn [row col] in Ht; try congruence.
    destruct H as [(t' & Hg & Hne) | He]; [|assumption].
    rewrite Hg in Ht. injection Ht as ->. contradiction.
Qed.

(** X5: a bishop, rook or queen move goes one to seven steps along one of
    the piece's directions, and every square passed on the way is
    empty. *)
Theorem sliders_do_not_jump ep cr pos b piece m :
  getAt b pos = Some piece ->
  type piece = bishop \/ type piece = rook \/ type piece = queen ->
  In m (getPseudoLegalMoves ep cr pos b) ->
  exists d (n : nat),
    In d (sliderDirs (type piece)) /\ (1 <= n <= 7)%nat
    /\ m = mkPos (row pos + Z.of_nat n * fst d) (col pos + Z.of_nat n * snd d)
    /\ forall j : nat, (1 <= j < n)%nat ->
         get b (row pos + Z.of_nat j * fst d) (col pos + Z.of_nat j * snd d) = None.
Proof.
  intros Hp Hty Hin. unfold getPseudoLegalMoves in Hin. rewrite Hp in Hin.
  cbv zeta in Hin.
  assert (Hpos : isValidSquare (row pos) (col pos) = true)
    by (eapply get_Some_valid, Hp).
  assert (Hs : In m (slides b (color piece) (row pos) (col pos) (sliderDirs (type piece)))).
  { destruct Hty as [Ht | [Ht | Ht]]; rewrite Ht in Hin |- *; exact Hin. }
  apply slides_In in Hs. destruct Hs as (d & n & Hd & Hn & Hm & Hv & _ & Hpath).
  exists d, n. split; [assumption|]. split; [|split; assumption].
  split; [assumption|].
  rewrite Hm in Hv. cbn [row col] in Hv.
  apply isValidSquare_true in Hv, Hpos.
  assert (Hdir : (fst d = 1 \/ fst d = -1 \/ snd d = 1 \/ snd d = -1)).
  { destruct Hty as [Ht | [Ht | Ht]]; rewrite Ht in Hd; cbn in Hd;
      repeat (destruct Hd as [<-|Hd]; [cbn; lia|]); destruct Hd. }
  destruct Hdir as [H|[H|[H|H]]]; rewrite H in Hv; lia.
Qed.

Lemma holds_piece b r k pc :
  get b r k = Some pc -> holds b r k (type pc) (color pc) = true.
Proof.
  intros H. unfold holds. rewrite (get_Some_valid _ _ _ _ H), H.
  destruct pc as [[] []]; reflexivity.
Qed.

(** A walk that meets only empty squares and then a piece answers for
    that piece. *)
Lemma rayAttack_hit b byColor t1 t2 dr dc pc : forall (n fuel : nat) r c,
  (n < fuel)%nat ->
  (forall j : nat, (j <= n)%nat ->
     isValidSquare (r + Z.of_nat j * dr) (c + Z.of_nat j * dc) = true) ->
  (forall j : nat, (j < n)%nat ->
     get b (r + Z.of_nat j * dr) (c + Z.of_nat j * dc) = None) ->
  get b (r + Z.of_nat n * dr) (c + Z.of_nat n * dc) = Some pc ->
  rayAttack fuel b byColor t1 t2 r c dr dc
  = color_eqb (color pc) byColor && (type_eqb (type pc) t1 || type_eqb (type pc) t2).
Proof.
  induction n as [|n IH]; intros fuel r c Hf Hv Hpath Hhit.
  - destruct fuel as [|f]; [lia|]. cbn [rayAttack].
    replace (r + Z.of_nat 0 * dr) with r in * by lia.
    replace (c + Z.of_nat 0 * dc) with c in * by lia.
    specialize (Hv 0%nat (Nat.le_refl _)).
    replace (r + Z.of_nat 0 * dr) with r in Hv by lia.
    replace (c + Z.of_nat 0 * dc) with c in Hv by lia.
    now rewrite Hv, Hhit.
  - destruct fuel as [|f]; [lia|]. cbn [rayAttack].
    pose proof (Hv 0%nat (Nat.le_0_l _)) as Hv0.
    pose proof (Hpath 0%nat (Nat.lt_0_succ _)) as Hp0.
    replace (r + Z.of_nat 0 * dr) with r in * by lia.
    replace (c + Z.of_nat 0 * dc) with c in * by lia.
    rewrite Hv0, Hp0. apply IH.
    + lia.
    + intros j Hj. specialize (Hv (S j)).
      replace (r + dr + Z.of_nat j * dr) with (r + Z.of_nat (S j) * dr) by lia.
      replace (c + dc + Z.of_nat j * dc) with (c + Z.of_nat (S j) * dc) by lia.
      apply Hv. lia.
    + intros j Hj. specialize (Hpath (S j)).
      replace (r + dr + Z.of_nat j * dr) with (r + Z.of_nat (S j) * dr) by lia.
      replace (c + dc + Z.of_nat j * dc) with (c + Z.of_nat (S j) * dc) by lia.
      apply Hpath. lia.
    + replace (r + dr + Z.of_nat n * dr) with (r + Z.of_nat (S n) * dr) by lia.
      replace (c + dc + Z.of_nat n * dc) with (c + Z.of_nat (S n) * dc) by lia.
      assumption.
Qed.

(** Looking back from the landing square of a sliding move, the walk of
    the attack test meets the slider. *)
Lemma slide_seen_from_target b byColor t1 t2 r k d (n : nat) pc :
  unitDir d -> (1 <= n)%nat ->
  isValidSquare r k = true ->
  isValidSquare (r + Z.of_nat n * fst d) (k + Z.of_nat n * snd d) = true ->
  get b r k = Some pc ->
  (forall j : nat, (1 <= j < n)%nat ->
     get b (r + Z.of_nat j * fst d) (k + Z.of_nat j * snd d) = None) ->
  rayAttack walkFuel b byColor t1 t2
            (r + Z.of_nat n * fst d + - fst d) (k + Z.of_nat n * snd d + - snd d)
            (- fst d) (- snd d)
  = color_eqb (color pc) byColor && (type_eqb (type pc) t1 || type_eqb (type pc) t2).
Proof.
  intros (Hdr & Hdc & Hnz) Hn Hq Hm Hg Hpath.
  apply isValidSquare_true in Hq, Hm.
  assert (Hn7 : (n <= 7)%nat).
  { destruct Hdr as [H|[H|H]]; destruct Hdc as [H'|[H'|H']];
      rewrite ?H, ?H' in Hm; try lia. }
  apply (rayAttack_hit b byColor t1 t2 (- fst d) (- snd d) pc (n - 1)).
  - unfold walkFuel. lia.
  - intros j Hj. apply isValidSquare_true.
    destruct Hdr as [H|[H|H]]; destruct Hdc as [H'|[H'|H']];
      rewrite ?H, ?H' in *; lia.
  - intros j Hj.
    replace (r + Z.of_nat n * fst d + - fst d + Z.of_nat j * - fst d)
      with (r + Z.of_nat (n - 1 - j) * fst d) by nia.
    replace (k + Z.of_nat n * snd d + - snd d + Z.of_nat j * - snd d)
      with (k + Z.of_nat (n - 1 - j) * snd d) by nia.
    apply Hpath. lia.
  - replace (r + Z.of_nat n * fst d + - fst d + Z.of_nat (n - 1) * - fst d)
      with r by nia.
    replace (k + Z.of_nat n * snd d + - snd d + Z.of_nat (n - 1) * - snd d)
      with k by nia.
    assumption.
Qed.

Lemma negDir_knightMoves d : In d knightMoves -> In (negDir d) knightMoves.
Proof.
  unfold knightMoves. cbn [In]. intros H.
  repeat (destruct H as [<-|H]; [cbn; tauto|]). destruct H.
Qed.

Lemma negDir_kingRing d : In d queenDirs -> In (negDir d) kingRing.
Proof.
  unfold queenDirs, kingRing. cbn [In]. intros H.
  repeat (destruct H as [<-|H]; [cbn; tauto|]). destruct H.
Qed.

Lemma negDir_diagonals d : In d diagonals -> In (negDir d) diagonals /\ unitDir d.
Proof.
  unfold diagonals, unitDir. cbn [In]. intros H.
  repeat (destruct H as [<-|H]; [cbn; split; [tauto | lia]|]). destruct H.
Qed.

Lemma negDir_straights d : In d straights -> In (negDir d) straights /\ unitDir d.
Proof.
  unfold straights, unitDir. cbn [In]. intros H.
  repeat (destruct H as [<-|H]; [cbn; split; [tauto | lia]|]). destruct H.
Qed.

Lemma queenDirs_split d : In d queenDirs -> In d straights \/ In d diagonals.
Proof.
  unfold queenDirs, straights, diagonals. cbn [In]. tauto.
Qed.

Lemma attacked_by_step b pos byColor :
  (exists d, In d knightMoves
             /\ holds b (row pos + fst d) (col pos + snd d) knight byColor = true)
  \/ (exists d, In d kingRing
                /\ holds b (row pos + fst d) (col pos + snd d) king byColor = true)
  \/ (exists d, In d diagonals
                /\ rayAttack walkFuel b byColor bishop queen
                     (row pos + fst d) (col pos + snd d) (fst d) (snd d) = true)
  \/ (exists d, In d straights
                /\ rayAttack walkFuel b byColor rook queen
                     (row pos + fst d) (col pos + snd d) (fst d) (snd d) = true)
  \/ (exists off, (off = -1 \/ off = 1)
                  /\ holds b (row pos - forward byColor) (col pos + off) pawn byColor = true)
  <-> isSquareUnderAttack pos b byColor = true.
Proof.
  unfold isSquareUnderAttack. fold (forward byColor). cbv zeta.
  rewrite !orb_true_iff, !existsb_exists. split.
  - intros [H|[H|[H|[H|(off & Hoff & H)]]]].
    + left. left. left. right. exact H.
    + left. left. right. exact H.
    + left. right. exact H.
    + right. exact H.
    + left. left. left. left. exists off. split; [cbn [In]; lia | exact H].
  - intros [[[[(off & Hoff & H)|H]|H]|H]|H].
    + right. right. right. right. exists off. split; [cbn [In] in Hoff; lia | exact H].
    + left. exact H.
    + right. left. exact H.
    + right. right. left. exact H.
    + right. right. right. left. exact H.
Qed.

Lemma slides_queenDirs b c r k m :
  In m (slides b c r k queenDirs) ->
  In m (slides b c r k straights) \/ In m (slides b c r k diagonals).
Proof.
  unfold slides. rewrite !in_flat_map. intros (d & Hd & H).
  apply queenDirs_split in Hd. destruct Hd; [left | right]; exists d; auto.
Qed.

Lemma captures_are_attacks cr q b piece pos :
  getAt b q = Some piece ->
  In pos (getPseudoLegalMoves None cr q b) ->
  getAt b pos <> None ->
  isSquareUnderAttack pos b (color piece) = true.
Proof.
  intros Hq Hin Hocc. apply attacked_by_step.
  assert (Hqv : isValidSquare (row q) (col q) = true) by (eapply get_Some_valid, Hq).
  unfold getAt in Hq. pose proof (holds_piece _ _ _ _ Hq) as Hholds.
  unfold getPseudoLegalMoves in Hin. unfold getAt in Hin. rewrite Hq in Hin.
  cbv zeta in Hin.
  assert (Hslide : forall dirs t1 t2,
            In pos (slides b (color piece) (row q) (col q) dirs) ->
            (forall d, In d dirs -> In (negDir d) dirs /\ unitDir d) ->
            type_eqb (type piece) t1 || type_eqb (type piece) t2 = true ->
            exists d, In d dirs
              /\ rayAttack walkFuel b (color piece) t1 t2
                   (row pos + fst d) (col pos + snd d) (fst d) (snd d) = true).
  { intros dirs t1 t2 Hs Hdirs Hty. apply slides_In in Hs.
    destruct Hs as (d & n & Hd & Hn & Hm & Hv & _ & Hpath).
    destruct (Hdirs d Hd) as [Hneg Hunit].
    exists (negDir d). split; [assumption|]. rewrite Hm in Hv |- *.
    cbn [row col negDir fst snd] in *.
    rewrite (slide_seen_from_target b (color piece) t1 t2 (row q) (col q) d n piece);
      try assumption.
    rewrite Hty. destruct (color piece); reflexivity. }
  destruct (type piece) eqn:Hty.
  - apply in_app_iff in Hin. destruct Hin as [H|H].
    + apply steps_In' in H. destruct H as (d & Hd & Hm & _).
      right. left. exists (negDir d). split; [now apply negDir_kingRing|].
      rewrite Hm. cbn [row col negDir fst snd].
      replace (row q + fst d + - fst d) with (row q) by lia.
      replace (col q + snd d + - snd d) with (col q) by lia. exact Hholds.
    + apply castlingMoves_In in H.
      destruct H as (_ & _ & _ & [(-> & _ & _ & H6 & _) | (-> & _ & _ & H2 & _)]);
        apply isNone_true in H6 || apply isNone_true in H2;
        unfold getAt in Hocc; cbn [row col] in Hocc; contradiction.
  - apply slides_queenDirs in Hin.
    destruct Hin as [H|H].
    + right. right. right. left.
      apply (Hslide straights rook queen H); [apply negDir_straights | apply orb_true_r].
    + right. right. left.
      apply (Hslide diagonals bishop queen H); [apply negDir_diagonals | apply orb_true_r].
  - right. right. right. left.
    apply (Hslide straights rook queen Hin); [apply negDir_straights | reflexivity].
  - right. right. left.
    apply (Hslide diagonals bishop queen Hin); [apply negDir_diagonals | reflexivity].
  - apply steps_In' in Hin. destruct Hin as (d & Hd & Hm & _).
    left. exists (negDir d). split; [now apply negDir_knightMoves|].
    rewrite Hm. cbn [row col negDir fst snd].
    replace (row q + fst d + - fst d) with (row q) by lia.
    replace (col q + snd d + - snd d) with (col q) by lia. exact Hholds.
  - apply pawnMoves_In in Hin. unfold getAt in Hocc.
    destruct Hin as [(-> & _ & Hg) | [(-> & _ & _ & _ & Hg) | (off & Hoff & -> & _ & H)]];
      cbn [row col] in Hocc; try contradiction.
    right. right. right. right. exists (- off). split; [lia|].
    cbn [row col].
    replace (row q + forward (color piece) - forward (color piece)) with (row q) by lia.
    replace (col q + off + - off) with (col q) by lia. exact Hholds.
Qed.

Lemma rayAttack_true b byColor t1 t2 dr dc : forall fuel r c,
  rayAttack fuel b byColor t1 t2 r c dr dc = true ->
  exists (n : nat) pc,
    (n < fuel)%nat
    /\ (forall j : nat, (j < n)%nat ->
          get b (r + Z.of_nat j * dr) (c + Z.of_nat j * dc) = None)
    /\ (forall j : nat, (j <= n)%nat ->
          isValidSquare (r + Z.of_nat j * dr) (c + Z.of_nat j * dc) = true)
    /\ get b (r + Z.of_nat n * dr) (c + Z.of_nat n * dc) = Some pc
    /\ color pc = byColor
    /\ (type pc = t1 \/ type pc = t2).
Proof.
  induction fuel as [|f IH]; intros r c H; [discriminate|].
  cbn [rayAttack] in H. destruct (isValidSquare r c) eqn:Hv; [|discriminate].
  destruct (get b r c) as [pc|] eqn:Hg.
  - exists 0%nat, pc. apply andb_true_iff in H. destruct H as [Hc Ht].
    apply color_eqb_eq in Hc. apply orb_true_iff in Ht.
    rewrite !type_eqb_eq in Ht.
    replace (r + Z.of_nat 0 * dr) with r by lia.
    replace (c + Z.of_nat 0 * dc) with c by lia.
    split; [lia|]. split; [intros j Hj; lia|]. split; [|auto].
    intros j Hj. replace j with 0%nat by lia.
    replace (r + Z.of_nat 0 * dr) with r by lia.
    replace (c + Z.of_nat 0 * dc) with c by lia. assumption.
  - destruct (IH _ _ H) as (n & pc & Hn & Hpath & Hval & Hhit & Hc & Ht).
    exists (S n), pc. split; [lia|]. split; [|split; [|split; [|auto]]].
    + intros [|j] Hj.
      * replace (r + Z.of_nat 0 * dr) with r by lia.
        replace (c + Z.of_nat 0 * dc) with c by lia. assumption.
      * replace (r + Z.of_nat (S j) * dr) with (r + dr + Z.of_nat j * dr) by lia.
        replace (c + Z.of_nat (S j) * dc) with (c + dc + Z.of_nat j * dc) by lia.
        apply Hpath. lia.
    + intros [|j] Hj.
      * replace (r + Z.of_nat 0 * dr) with r by lia.
        replace (c + Z.of_nat 0 * dc) with c by lia. assumption.
      * replace (r + Z.of_nat (S j) * dr) with (r + dr + Z.of_nat j * dr) by lia.
        replace (c + Z.of_nat (S j) * dc) with (c + dc + Z.of_nat j * dc) by lia.
        apply Hval. lia.
    + replace (r + Z.of_nat (S n) * dr) with (r + dr + Z.of_nat n * dr) by lia.
      replace (c + Z.of_nat (S n) * dc) with (c + dc + Z.of_nat n * dc) by lia.
      assumption.
Qed.

Lemma slide_reaches b c dr dc t : forall (n fuel : nat) r k,
  (n < fuel)%nat ->
  (forall j : nat, (j < n)%nat ->
     get b (r + Z.of_nat j * dr) (k + Z.of_nat j * dc) = None) ->
  (forall j : nat, (j <= n)%nat ->
     isValidSquare (r + Z.of_nat j * dr) (k + Z.of_nat j * dc) = true) ->
  get b (r + Z.of_nat n * dr) (k + Z.of_nat n * dc) = Some t ->
  color t <> c ->
  In (mkPos (r + Z.of_nat n * dr) (k + Z.of_nat n * dc)) (slide fuel b c r k dr dc).
Proof.
  induction n as [|n IH]; intros fuel r k Hf Hpath Hval Hhit Hc.
  - destruct fuel as [|f]; [lia|]. cbn [slide].
    pose proof (Hval 0%nat (Nat.le_refl _)) as Hv.
    replace (r + Z.of_nat 0 * dr) with r in * by lia.
    replace (k + Z.of_nat 0 * dc) with k in * by lia.
    rewrite Hv, Hhit. apply color_eqb_false in Hc. rewrite Hc. now left.
  - destruct fuel as [|f]; [lia|]. cbn [slide].
    pose proof (Hval 0%nat (Nat.le_0_l _)) as Hv.
    pose proof (Hpath 0%nat (Nat.lt_0_succ _)) as Hp.
    replace (r + Z.of_nat 0 * dr) with r in * by lia.
    replace (k + Z.of_nat 0 * dc) with k in * by lia.
    rewrite Hv, Hp. right.
    replace (r + Z.of_nat (S n) * dr) with (r + dr + Z.of_nat n * dr) by lia.
    replace (k + Z.of_nat (S n) * dc) with (k + dc + Z.of_nat n * dc) by lia.
    apply IH.
    + lia.
    + intros j Hj. specialize (Hpath (S j)).
      replace (r + dr + Z.of_nat j * dr) with (r + Z.of_nat (S j) * dr) by lia.
      replace (k + dc + Z.of_nat j * dc) with (k + Z.of_nat (S j) * dc) by lia.
      apply Hpath. lia.
    + intros j Hj. specialize (Hval (S j)).
      replace (r + dr + Z.of_nat j * dr) with (r + Z.of_nat (S j) * dr) by lia.
      replace (k + dc + Z.of_nat j * dc) with (k + Z.of_nat (S j) * dc) by lia.
      apply Hval. lia.
    + replace (r + dr + Z.of_nat n * dr) with (r + Z.of_nat (S n) * dr) by lia.
      replace (k + dc + Z.of_nat n * dc) with (k + Z.of_nat (S n) * dc) by lia.
      assumption.
    + assumption.
Qed.

(** A slider seen by the attack walk from [pos] in direction [d] has the
    sliding move onto [pos]. *)
Lemma seen_slider_moves b byColor t1 t2 pos d target :
  isValidSquare (row pos) (col pos) = true ->
  getAt b pos = Some target -> color target <> byColor ->
  rayAttack walkFuel b byColor t1 t2
            (row pos + fst d) (col pos + snd d) (fst d) (snd d) = true ->
  exists q piece,
    getAt b q = Some piece /\ color piece = byColor
    /\ (type piece = t1 \/ type piece = t2)
    /\ In pos (slide walkFuel b byColor (row q + - fst d) (col q + - snd d)
                     (- fst d) (- snd d)).
Proof.
  intros Hpv Ht Hc H. apply rayAttack_true in H.
  destruct H as (n & pc & Hn & Hpath & Hval & Hhit & Hcol & Hty).
  set (qr := row pos + fst d + Z.of_nat n * fst d) in *.
  set (qk := col pos + snd d + Z.of_nat n * snd d) in *.
  exists (mkPos qr qk), pc. unfold getAt at 1. cbn [row col].
  split; [assumption|]. split; [assumption|]. split; [assumption|].
  assert (Hpos : pos = mkPos (qr + - fst d + Z.of_nat n * - fst d)
                             (qk + - snd d + Z.of_nat n * - snd d)).
  { destruct pos as [pr pk]. unfold qr, qk. cbn [row col]. f_equal; ring. }
  rewrite Hpos at 1. unfold walkFuel in *.
  apply (slide_reaches b byColor (- fst d) (- snd d) target n); try assumption.
  - intros j Hj.
    assert (He : Z.of_nat (n - 1 - j) = Z.of_nat n - 1 - Z.of_nat j) by lia.
    replace (qr + - fst d + Z.of_nat j * - fst d)
      with (row pos + fst d + Z.of_nat (n - 1 - j) * fst d)
      by (unfold qr; rewrite He; ring).
    replace (qk + - snd d + Z.of_nat j * - snd d)
      with (col pos + snd d + Z.of_nat (n - 1 - j) * snd d)
      by (unfold qk; rewrite He; ring).
    apply Hpath. lia.
  - intros j Hj. destruct (Nat.eq_dec j n) as [->|Hjn].
    + replace (qr + - fst d + Z.of_nat n * - fst d) with (row pos) by (unfold qr; ring).
      replace (qk + - snd d + Z.of_nat n * - snd d) with (col pos) by (unfold qk; ring).
      assumption.
    + assert (He : Z.of_nat (n - 1 - j) = Z.of_nat n - 1 - Z.of_nat j) by lia.
      replace (qr + - fst d + Z.of_nat j * - fst d)
        with (row pos + fst d + Z.of_nat (n - 1 - j) * fst d)
        by (unfold qr; rewrite He; ring).
      replace (qk + - snd d + Z.of_nat j * - snd d)
        with (col pos + snd d + Z.of_nat (n - 1 - j) * snd d)
        by (unfold qk; rewrite He; ring).
      apply Hval. lia.
  - replace (qr + - fst d + Z.of_nat n * - fst d) with (row pos) by (unfold qr; ring).
    replace (qk + - snd d + Z.of_nat n * - snd d) with (col pos) by (unfold qk; ring).
    exact Ht.
Qed.

Lemma holds_true b r k t c :
  holds b r k t c = true ->
  exists pc, get b r k = Some pc /\ type pc = t /\ color pc = c.
Proof.
  unfold holds. intros H. apply andb_true_iff in H. destruct H as [_ H].
  destruct (get b r k) as [pc|]; [|discriminate].
  apply andb_true_iff in H. destruct H as [Ht Hc].
  apply type_eqb_eq in Ht. apply color_eqb_eq in Hc. eauto.
Qed.

Lemma steps_intro b c r k offs d :
  In d offs -> isEmptyOrEnemy b c (r + fst d) (k + snd d) = true ->
  In (mkPos (r + fst d) (k + snd d)) (steps b c r k offs).
Proof.
  intros Hd He. unfold steps. apply in_flat_map. exists d.
  split; [assumption|]. rewrite He. now left.
Qed.

Lemma isEmptyOrEnemy_enemy b c pos target :
  isValidSquare (row pos) (col pos) = true ->
  getAt b pos = Some target -> color target <> c ->
  isEmptyOrEnemy b c (row pos) (col pos) = true.
Proof.
  intros Hv Hg Hc. unfold isEmptyOrEnemy. rewrite Hv. unfold getAt in Hg.
  rewrite Hg. apply negb_true_iff. now apply color_eqb_false.
Qed.

Lemma negDir_kingRing_queenDirs d : In d kingRing -> In (negDir d) queenDirs.
Proof.
  unfold queenDirs, kingRing. cbn [In]. intros H.
  repeat (destruct H as [<-|H]; [cbn; tauto|]). destruct H.
Qed.

Lemma slides_intro b c r k dirs d m :
  In d dirs -> In m (slide walkFuel b c (r + fst d) (k + snd d) (fst d) (snd d)) ->
  In m (slides b c r k dirs).
Proof. intros Hd H. unfold slides. apply in_flat_map. eauto. Qed.

Lemma diagonals_queenDirs d : In d diagonals -> In d queenDirs.
Proof. unfold diagonals, queenDirs. cbn [In]. tauto. Qed.

Lemma straights_queenDirs d : In d straights -> In d queenDirs.
Proof. unfold straights, queenDirs. cbn [In]. tauto. Qed.

Lemma attacks_are_captures cr b pos target byColor :
  getAt b pos = Some target -> color target <> byColor ->
  isSquareUnderAttack pos b byColor = true ->
  exists q piece,
    getAt b q = Some piece /\ color piece = byColor
    /\ In pos (getPseudoLegalMoves None cr q b).
Proof.
  intros Ht Hc Hatt.
  assert (Hpv : isValidSquare (row pos) (col pos) = true)
    by (eapply get_Some_valid, Ht).
  pose proof (isEmptyOrEnemy_enemy b byColor pos target Hpv Ht Hc) as Hee.
  assert (Hback : forall d, mkPos (row pos + fst d + fst (negDir d))
                                  (col pos + snd d + snd (negDir d)) = pos).
  { intros d. destruct pos as [pr pk]. cbn. f_equal; lia. }
  assert (Hee' : forall d,
            isEmptyOrEnemy b byColor (row pos + fst d + fst (negDir d))
                           (col pos + snd d + snd (negDir d)) = true).
  { intros d. cbn [negDir fst snd].
    replace (row pos + fst d + - fst d) with (row pos) by lia.
    replace (col pos + snd d + - snd d) with (col pos) by lia. exact Hee. }
  assert (Hslider : forall dirs t1 t2 d,
            In d dirs ->
            (forall e, In e dirs -> In (negDir e) dirs) ->
            rayAttack walkFuel b byColor t1 t2
                      (row pos + fst d) (col pos + snd d) (fst d) (snd d) = true ->
            exists q piece,
              getAt b q = Some piece /\ color piece = byColor
              /\ (type piece = t1 \/ type piece = t2)
              /\ In pos (slides b byColor (row q) (col q) dirs)).
  { intros dirs t1 t2 d Hd Hneg H.
    destruct (seen_slider_moves b byColor t1 t2 pos d target Hpv Ht Hc H)
      as (q & piece & Hq & Hcol & Hty & Hin).
    exists q, piece. repeat (split; [assumption|]).
    apply (slides_intro b byColor (row q) (col q) dirs (negDir d));
      [now apply Hneg | exact Hin]. }
  apply attacked_by_step in Hatt.
  destruct Hatt as [(d & Hd & H) | [(d & Hd & H) | [(d & Hd & H) | [(d & Hd & H)
                   | (off & Hoff & H)]]]].
  - (* knight *)
    apply holds_true in H. destruct H as (pc & Hg & Hty & Hcol).
    exists (mkPos (row pos + fst d) (col pos + snd d)), pc.
    split; [exact Hg|]. split; [assumption|].
    unfold getPseudoLegalMoves, getAt. cbn [row col]. rewrite Hg, Hty. cbv zeta.
    rewrite <- (Hback d) at 1. rewrite Hcol.
    apply steps_intro; [now apply negDir_knightMoves | apply Hee'].
  - (* king *)
    apply holds_true in H. destruct H as (pc & Hg & Hty & Hcol).
    exists (mkPos (row pos + fst d) (col pos + snd d)), pc.
    split; [exact Hg|]. split; [assumption|].
    unfold getPseudoLegalMoves, getAt. cbn [row col]. rewrite Hg, Hty. cbv zeta.
    apply in_app_iff. left.
    rewrite <- (Hback d) at 1. rewrite Hcol.
    apply steps_intro; [now apply negDir_kingRing_queenDirs | apply Hee'].
  - (* bishop or queen on a diagonal *)
    destruct (Hslider diagonals bishop queen d Hd
                (fun e He => proj1 (negDir_diagonals e He)) H)
      as (q & piece & Hq & Hcol & Hty & Hin).
    exists q, piece. split; [assumption|]. split; [assumption|].
    unfold getPseudoLegalMoves. rewrite Hq. cbv zeta. rewrite Hcol.
    destruct Hty as [-> | ->]; [exact Hin|].
    unfold slides in *. apply in_flat_map in Hin. destruct Hin as (e & He & Hin).
    apply in_flat_map. exists e. split; [now apply diagonals_queenDirs | exact Hin].
  - (* rook or queen on a line *)
    destruct (Hslider straights rook queen d Hd
                (fun e He => proj1 (negDir_straights e He)) H)
      as (q & piece & Hq & Hcol & Hty & Hin).
    exists q, piece. split; [assumption|]. split; [assumption|].
    unfold getPseudoLegalMoves. rewrite Hq. cbv zeta. rewrite Hcol.
    destruct Hty as [-> | ->]; [exact Hin|].
    unfold slides in *. apply in_flat_map in Hin. destruct Hin as (e & He & Hin).
    apply in_flat_map. exists e. split; [now apply straights_queenDirs | exact Hin].
  - (* pawn *)
    apply holds_true in H. destruct H as (pc & Hg & Hty & Hcol).
    exists (mkPos (row pos - forward byColor) (col pos + off)), pc.
    split; [exact Hg|]. split; [assumption|].
    unfold getPseudoLegalMoves, getAt. cbn [row col]. rewrite Hg, Hty. cbv zeta.
    rewrite Hcol. apply pawnMoves_In. right. right. exists (- off).
    split; [lia|].
    replace (row pos - forward byColor + forward byColor) with (row pos) by lia.
    replace (col pos + off + - off) with (col pos) by lia.
    split; [now destruct pos|]. split; [assumption|].
    left. exists target. split; [exact Ht | assumption].
Qed.

(** X3: every pseudo-legal move starts from a square of the board, lands
    on a square of the board, and never stays on its own square. *)
Theorem pseudoLegalMoves_on_board ep cr pos b m :
  In m (getPseudoLegalMoves ep cr pos b) ->
  isValidSquare (row m) (col m) = true
  /\ isValidSquare (row pos) (col pos) = true
  /\ m <> pos.
Proof.
  intros Hin. split; [now apply (pseudoLegalMoves_valid ep cr pos b)|].
  destruct (getAt b pos) as [piece|] eqn:Hp.
  - split; [eapply get_Some_valid, Hp|].
    destruct (pseudoLegalMoves_shape _ _ _ _ _ _ Hp Hin) as [Hne _].
    intros ->. destruct Hne; congruence.
  - unfold getPseudoLegalMoves in Hin. rewrite Hp in Hin. destruct Hin.
Qed.

(** X6: a square holding a piece of the other color is under attack by
    [byColor] exactly when some piece of [byColor] has a pseudo-legal move
    onto it (no en passant target in play). *)
Theorem attack_iff_capture cr b pos target byColor :
  getAt b pos = Some target -> color target <> byColor ->
  (isSquareUnderAttack pos b byColor = true <->
   exists q piece,
     getAt b q = Some piece /\ color piece = byColor
     /\ In pos (getPseudoLegalMoves None cr q b)).
Proof.
  intros Ht Hc. split.
  - now apply (attacks_are_captures cr b pos target).
  - intros (q & piece & Hq & <- & Hin).
    apply (captures_are_attacks cr q b piece pos Hq Hin). congruence.
Qed.

(** X10: after the opponent's applier the clock is the live one
    (nothing applied), zero, or the clock of the closure plus one, and the
    history is the live one or the closure's history plus one key: the
    live clock and history are never what it extends. *)
Theorem makeAIMove_works_from_closure cl rnd b cr ep live :
  (halfMoveClock (makeAIMove cl rnd b cr ep live) = halfMoveClock live
   \/ halfMoveClock (makeAIMove cl rnd b cr ep live) = 0
   \/ halfMoveClock (makeAIMove cl rnd b cr ep live) = halfMoveClock cl + 1)
  /\ (positionHistory (makeAIMove cl rnd b cr ep live) = positionHistory live
      \/ exists key,
           positionHistory (makeAIMove cl rnd b cr ep live)
           = positionHistory cl ++ [key]).
Proof.
  split; [apply makeAIMove_clock_from_closure | apply makeAIMove_history_from_closure].
Qed.

Lemma rightsLe_refl a : rightsLe a a.
Proof. unfold rightsLe. tauto. Qed.

Lemma rightsLe_trans a b c : rightsLe a b -> rightsLe b c -> rightsLe a c.
Proof. unfold rightsLe. tauto. Qed.

Lemma updateRights_le mover p fc cr : rightsLe (updateRights mover p fc cr) cr.
Proof.
  unfold updateRights, rightsLe.
  destruct (type_eqb (type p) king), (color p), mover,
    (type_eqb (type p) rook); cbn;
    destruct (fc =? 7), (fc =? 0); cbn; repeat split; congruence.
Qed.

Lemma handleSquareClick_rights s r k :
  rightsLe (castlingRights (fst (handleSquareClick s r k))) (castlingRights s)
  /\ forall t, snd (handleSquareClick s r k) = Some t ->
       argRights t = castlingRights (fst (handleSquareClick s r k)).
Proof.
  unfold handleSquareClick, applyHumanMove, selectPiece.
  repeat match goal with
         | |- context [match ?x with _ => _ end] => destruct x
         end; cbn;
    (split; [try apply rightsLe_refl; try apply updateRights_le
            | intros t Ht; try discriminate; injection Ht as <-; reflexivity]).
Qed.

Lemma makeAIMove_rights cl rnd b cr ep live :
  castlingRights (makeAIMove cl rnd b cr ep live) = castlingRights live
  \/ rightsLe (castlingRights (makeAIMove cl rnd b cr ep live)) cr.
Proof.
  unfold makeAIMove.
  repeat match goal with
         | |- context [match ?x with _ => _ end] => destruct x
         end; cbn; auto using updateRights_le.
Qed.

(** X11: across a move pair (two clicks and the scheduled reply) no
    castling right that was cleared is set again. *)
Theorem castling_rights_never_return s src dst rnd :
  rightsLe (castlingRights (ply s src dst rnd)) (castlingRights s).
Proof.
  unfold ply, humanMove, reply.
  set (s1 := fst (handleSquareClick s (row src) (col src))).
  pose proof (handleSquareClick_rights s (row src) (col src)) as [H1 _].
  fold s1 in H1.
  pose proof (handleSquareClick_rights s1 (row dst) (col dst)) as [H2 Ht].
  destruct (snd (handleSquareClick s1 (row dst) (col dst))) as [t|] eqn:Hs.
  - unfold fire.
    destruct (makeAIMove_rights (closure t) rnd (argBoard t) (argRights t)
                (argEnPassant t) (fst (handleSquareClick s1 (row dst) (col dst))))
      as [He | Hle].
    + rewrite He. eapply rightsLe_trans; eassumption.
    + eapply rightsLe_trans; [exact Hle|]. rewrite (Ht t eq_refl).
      eapply rightsLe_trans; eassumption.
  - eapply rightsLe_trans; eassumption.
Qed.

Lemma applyHumanMove_board s sel r k p :
  get (board s) (row sel) (col sel) = Some p ->
  isKing (get (board s) r k) = false ->
  board (fst (applyHumanMove s sel r k)) = humanBoard s sel r k p.
Proof.
  intros Hp Hk. unfold applyHumanMove, humanBoard. rewrite Hp, Hk.
  destruct (enPassantCapture p (enPassantTarget s) r k (board s) (get (board s) r k))
    as [[nb cp] ic].
  cbn [fst]. cbv zeta.
  repeat match goal with
         | |- context [if ?c then _ else _] =>
             lazymatch c with
             | type_eqb _ _ && _ => fail
             | _ => destruct c
             end
         | |- context [match ?x with Some _ => _ | None => _ end] => destruct x
         end; cbn; reflexivity.
Qed.

Lemma applyHumanMove_selection s sel r k :
  selectedSquare (fst (applyHumanMove s sel r k)) = None
  \/ fst (applyHumanMove s sel r k) = s.
Proof.
  unfold applyHumanMove.
  repeat match goal with
         | |- context [match ?x with _ => _ end] => destruct x
         end; cbn; auto.
Qed.

Lemma handleSquareClick_cases s r k :
  fst (handleSquareClick s r k) = s
  \/ (fst (handleSquareClick s r k) = selectPiece s r k
      /\ snd (handleSquareClick s r k) = None)
  \/ (currentTurn s = white /\ isCheckmate s = false /\ isDraw s = false
      /\ promotionSquare s = None
      /\ exists sel, selectedSquare s = Some sel
           /\ In (mkPos r k) (validMoves s)
           /\ handleSquareClick s r k = applyHumanMove s sel r k).
Proof.
  unfold handleSquareClick.
  destruct (currentTurn s) eqn:Ht; cbn [color_eqb negb orb]; [|now left].
  destruct (isCheckmate s) eqn:Hm; cbn [orb]; [now left|].
  destruct (isDraw s) eqn:Hd; cbn [orb]; [now left|].
  destruct (promotionSquare s) eqn:Hpr; cbn [isSome isNone negb]; [now left|].
  destruct (selectedSquare s) as [sel|] eqn:Hs; [|right; left; auto].
  destruct (existsb _ (validMoves s)) eqn:He; [|right; left; auto].
  right. right. repeat (split; [reflexivity|]). exists sel.
  split; [reflexivity|]. split; [|reflexivity].
  apply existsb_exists in He. destruct He as (m & Hin & Hm').
  apply andb_true_iff in Hm'. destruct Hm' as [H1 H2].
  apply Z.eqb_eq in H1, H2. destruct m as [mr mk]. cbn in H1, H2. now subst.
Qed.

Lemma selectPiece_frame s r k :
  board (selectPiece s r k) = board s
  /\ enPassantTarget (selectPiece s r k) = enPassantTarget s
  /\ castlingRights (selectPiece s r k) = castlingRights s
  /\ currentTurn (selectPiece s r k) = currentTurn s
  /\ halfMoveClock (selectPiece s r k) = halfMoveClock s
  /\ positionHistory (selectPiece s r k) = positionHistory s
  /\ capturedWhite (selectPiece s r k) = capturedWhite s
  /\ capturedBlack (selectPiece s r k) = capturedBlack s
  /\ isDraw (selectPiece s r k) = isDraw s
  /\ isCheckmate (selectPiece s r k) = isCheckmate s
  /\ drawReason (selectPiece s r k) = drawReason s.
Proof.
  unfold selectPiece.
  repeat match goal with
         | |- context [match ?x with _ => _ end] => destruct x
         end; cbn; repeat split.
Qed.

Lemma selectPiece_selectionOk s r k : selectionOk (selectPiece s r k).
Proof.
  unfold selectPiece, selectionOk.
  destruct (get (board s) r k) as [piece|] eqn:Hg; [|cbn; discriminate].
  destruct (color_eqb (color piece) white) eqn:Hc; [|cbn; discriminate].
  match goal with
  | |- context [if ?c then _ else _] => destruct c
  end; cbn; [discriminate|].
  intros sel Hs. injection Hs as <-. split; [reflexivity|].
  exists piece. split; [exact Hg | now apply color_eqb_eq].
Qed.

(** X12: a click leaves the selection consistent (the shown moves are the
    valid moves of a selected white piece), and it changes the board only
    when it is White's turn in a running game with no promotion pending
    and the clicked square is a valid move of the selected piece. *)
Theorem clicks_keep_selection_legal s r k :
  selectionOk s ->
  selectionOk (fst (handleSquareClick s r k))
  /\ (board (fst (handleSquareClick s r k)) <> board s ->
      currentTurn s = white /\ isCheckmate s = false /\ isDraw s = false
      /\ promotionSquare s = None
      /\ exists sel piece,
           selectedSquare s = Some sel
           /\ getAt (board s) sel = Some piece /\ color piece = white
           /\ In (mkPos r k)
                 (getValidMoves (enPassantTarget s) (castlingRights s) sel (board s))).
Proof.
  intros Hok.
  destruct (handleSquareClick_cases s r k)
    as [He | [[He _] | (Ht & Hm & Hd & Hpr & sel & Hs & Hin & He)]].
  - rewrite He. split; [assumption | congruence].
  - rewrite He. split; [apply selectPiece_selectionOk|].
    intros Hb. destruct (selectPiece_frame s r k) as [Hb' _]. congruence.
  - rewrite He. split.
    + destruct (applyHumanMove_selection s sel r k) as [Hn | Hn].
      * intros x Hx. congruence.
      * now rewrite Hn.
    + intros _. repeat (split; [assumption|]).
      destruct (Hok sel Hs) as [Hv (piece & Hp & Hc)].
      exists sel, piece. rewrite <- Hv. auto.
Qed.

(** The handler's board and the scratch board of the legality filter go
    through the same removals and relocations; they differ only in what is
    written on the landing square. *)
Lemma humanBoard_scratch s sel r k p :
  exists b2,
    humanBoard s sel r k p = put (put b2 r k (Some p)) (row sel) (col sel) None
    /\ simulateMove (enPassantTarget s) sel (mkPos r k) (board s) p
       = put (put b2 r k (get b2 (row sel) (col sel))) (row sel) (col sel) None
    /\ (wfBoard (board s) = true -> wfBoard b2 = true).
Proof.
  unfold humanBoard, simulateMove, enPassantCapture, castleRook, isPawn.
  cbn [row col]. cbv zeta.
  assert (Hfin : forall b2 : Board,
            (wfBoard (board s) = true -> wfBoard b2 = true) ->
            exists b2' : Board,
              put (put b2 r k (Some p)) (row sel) (col sel) None
              = put (put b2' r k (Some p)) (row sel) (col sel) None
              /\ put (put b2 r k (get b2 (row sel) (col sel))) (row sel) (col sel) None
                 = put (put b2' r k (get b2' (row sel) (col sel))) (row sel) (col sel) None
              /\ (wfBoard (board s) = true -> wfBoard b2' = true)).
  { intros b2 H. exists b2. auto. }
  destruct (type p) eqn:Hty; cbn [type_eqb andb];
    destruct (enPassantTarget s) as [e|]; cbn [fst];
    try (apply Hfin; auto; fail);
    try (destruct (Z.abs (k - col sel) =? 2); apply Hfin; intros Hwf;
         repeat apply put_wfBoard; assumption).
  destruct ((r =? row e) && (k =? col e)); cbn [fst]; apply Hfin; intros Hwf;
    repeat apply put_wfBoard; assumption.
Qed.

Lemma humanBoard_is_scratch s sel r k p :
  wfBoard (board s) = true ->
  getAt (board s) sel = Some p ->
  In (mkPos r k) (getPseudoLegalMoves (enPassantTarget s) (castlingRights s) sel (board s)) ->
  ~ (isEnPassantHit (enPassantTarget s) p (mkPos r k)
     /\ capturedPawnSquare p (mkPos r k) = sel) ->
  humanBoard s sel r k p
  = simulateMove (enPassantTarget s) sel (mkPos r k) (board s) p.
Proof.
  intros Hwf Hp Hin Hodd.
  pose proof (simulateMove_describes _ _ _ _ _ _ Hwf Hp Hin) as (_ & Hland & _).
  destruct Hland as [Hland | (Hh & Hc & _)]; [|exfalso; auto].
  destruct (humanBoard_scratch s sel r k p) as (b2 & Hh & Hs & Hwf2).
  rewrite Hh, Hs. rewrite Hs in Hland. clear Hh Hs.
  specialize (Hwf2 Hwf).
  pose proof (pseudoLegalMoves_valid _ _ _ _ _ Hin) as Hmv. cbn [row col] in Hmv.
  destruct (pseudoLegalMoves_shape _ _ _ _ _ _ Hp Hin) as [Hne _].
  cbn [row col] in Hne.
  unfold getAt in Hland. cbn [row col] in Hland.
  rewrite get_put_other in Hland by (try apply put_wfBoard; assumption).
  rewrite get_put_same in Hland by assumption.
  now rewrite Hland.
Qed.

(** X13: on a well-formed board with a consistent selection and the en
    passant target behind a black piece, a click that changes the board
    installs exactly the scratch board of the legality filter, so White's
    king is not in check on it. *)
Theorem human_move_keeps_king_safe s r k :
  selectionOk s -> wfBoard (board s) = true -> targetBehindBlack s ->
  board (fst (handleSquareClick s r k)) <> board s ->
  isKingInCheck (board (fst (handleSquareClick s r k))) white = false
  /\ exists sel piece,
       selectedSquare s = Some sel /\ getAt (board s) sel = Some piece
       /\ board (fst (handleSquareClick s r k))
          = simulateMove (enPassantTarget s) sel (mkPos r k) (board s) piece.
Proof.
  intros Hok Hwf Hep Hch.
  destruct (handleSquareClick_cases s r k)
    as [He | [[He _] | (Ht & Hm & Hd & Hpr & sel & Hs & Hin & He)]].
  - rewrite He in Hch. congruence.
  - rewrite He in Hch. destruct (selectPiece_frame s r k) as [Hb _]. congruence.
  - destruct (Hok sel Hs) as [Hv (piece & Hp & Hc)].
    rewrite Hv in Hin.
    apply (getValidMoves_In _ _ _ _ piece _ Hp) in Hin.
    destruct Hin as (Hps & Hk & Hsafe).
    assert (Hb : board (fst (handleSquareClick s r k))
                 = simulateMove (enPassantTarget s) sel (mkPos r k) (board s) piece).
    { rewrite He. rewrite (applyHumanMove_board s sel r k piece); [|exact Hp | exact Hk].
      apply humanBoard_is_scratch; try assumption.
      intros [[_ Hhit] Hcap]. destruct (Hep _ Hhit) as (q & Hq & Hqc).
      unfold capturedPawnSquare in Hcap. rewrite Hc in Hcap.
      cbn [row col] in Hq, Hcap. rewrite Hcap in Hq. congruence. }
    split.
    + rewrite Hb. rewrite Hc in Hsafe. exact Hsafe.
    + exists sel, piece. auto.
Qed.

(** X14: the opponent's applier either leaves the board as it is or
    installs a board on which Black's king is not in check. *)
Theorem makeAIMove_never_leaves_black_in_check cl rnd b cr ep live :
  board (makeAIMove cl rnd b cr ep live) = board live
  \/ isKingInCheck (board (makeAIMove cl rnd b cr ep live)) black = false.
Proof.
  unfold makeAIMove.
  repeat match goal with
         | |- context [match ?x with _ => _ end] => destruct x eqn:?
         end; cbn; auto.
Qed.

(** X15: with no valid move for Black the opponent's applier moves
    nothing and ends the game: checkmate if Black is in check, else a
    draw by stalemate. *)
Theorem makeAIMove_without_moves cl rnd b cr ep live :
  collectMoves (enPassantTarget cl) (castlingRights cl) b black = [] ->
  makeAIMove cl rnd b cr ep live
  = (if isKingInCheck b black
     then setIsCheckmate true live
     else declareDraw "Stalemate" (setIsStalemate true live))
  /\ board (makeAIMove cl rnd b cr ep live) = board live
  /\ currentTurn (makeAIMove cl rnd b cr ep live) = currentTurn live.
Proof.
  intros Hnone. unfold makeAIMove. cbv zeta. rewrite Hnone. cbn [List.length Z.of_nat Z.eqb].
  rewrite checkForCheckmate_eq. unfold noLegalMove. rewrite Hnone.
  rewrite andb_true_r. destruct (isKingInCheck b black); cbn; auto.
Qed.

(** X8: a human move that is not a promotion sets the clock to zero on a
    pawn move or capture and advances it otherwise, sets the en passant
    target exactly on a double pawn step, updates the rights; at a clock
    of 100 it declares the fifty-move draw and appends no key; below 100
    it appends the key of the new position with Black to move and
    declares the repetition draw when that key now occurs three times. *)
Theorem human_move_bookkeeping s sel r k p :
  get (board s) (row sel) (col sel) = Some p ->
  isKing (get (board s) r k) = false ->
  (isPawn p && (r =? 0)) = false ->
  halfMoveClock (fst (applyHumanMove s sel r k))
  = nextClock p (captureFlag p (enPassantTarget s) r k (board s)) (halfMoveClock s)
  /\ enPassantTarget (fst (applyHumanMove s sel r k))
     = doubleStepTarget p (row sel) (col sel) r
  /\ castlingRights (fst (applyHumanMove s sel r k))
     = updateRights white p (col sel) (castlingRights s)
  /\ ((halfMoveClock (fst (applyHumanMove s sel r k)) >=? 100) = true ->
      isDraw (fst (applyHumanMove s sel r k)) = true
      /\ drawReason (fst (applyHumanMove s sel r k)) = "Fifty-move rule"%string
      /\ positionHistory (fst (applyHumanMove s sel r k)) = positionHistory s
      /\ snd (applyHumanMove s sel r k) = None)
  /\ ((halfMoveClock (fst (applyHumanMove s sel r k)) >=? 100) = false ->
      positionHistory (fst (applyHumanMove s sel r k))
      = positionHistory s ++ [keyOf (fst (applyHumanMove s sel r k)) black]
      /\ ((countKey (keyOf (fst (applyHumanMove s sel r k)) black)
                    (positionHistory (fst (applyHumanMove s sel r k))) >=? 3) = true ->
          isDraw (fst (applyHumanMove s sel r k)) = true
          /\ drawReason (fst (applyHumanMove s sel r k)) = "Threefold repetition"%string
          /\ snd (applyHumanMove s sel r k) = None)).
Proof.
  intros Hp Hk Hpromo. unfold keyOf, applyHumanMove, captureFlag, nextClock.
  rewrite Hp, Hk.
  destruct (enPassantCapture p (enPassantTarget s) r k (board s) (get (board s) r k))
    as [[nb cp] ic].
  cbn [snd]. rewrite Hpromo.
  set (clock := if isPawn p || ic then 0 else halfMoveClock s + 1).
  destruct (clock >=? 100) eqn:Hc.
  - cbn. rewrite Hc. repeat apply conj; try reflexivity; try discriminate.
    intros _. destruct cp; [destruct ic|]; cbn; repeat apply conj; reflexivity.
  - repeat match goal with
           | |- context [if ?c then _ else _] => destruct c eqn:?
           end; cbn; rewrite ?Hc;
      repeat apply conj; try reflexivity; try discriminate;
      intros _; repeat apply conj; try reflexivity;
      intros Hcnt; try congruence; repeat apply conj; reflexivity.
Qed.

Lemma append_assoc' (a b c : string) : ((a ++ b) ++ c = a ++ (b ++ c))%string.
Proof. induction a as [|x a IH]; cbn; [reflexivity | now rewrite IH]. Qed.

Lemma append_nil_r (a : string) : (a ++ "" = a)%string.
Proof. induction a as [|x a IH]; cbn; [reflexivity | now rewrite IH]. Qed.

Lemma append_inv_head (s a b : string) : (s ++ a = s ++ b)%string -> a = b.
Proof. induction s as [|x s IH]; cbn; intros H; [assumption|]. injection H as H. auto. Qed.

Lemma boolStr_head x y (s s' : string) :
  (boolStr x ++ s = boolStr y ++ s')%string -> x = y /\ s = s'.
Proof. destruct x, y; cbn; intros H; try discriminate; injection H as ->; auto. Qed.

Lemma colorName_head t t' (s s' : string) :
  (colorName t ++ s = colorName t' ++ s')%string -> t = t' /\ s = s'.
Proof. destruct t, t'; cbn; intros H; try discriminate; injection H as ->; auto. Qed.

Lemma digit_cases z : 0 <= z < 8 ->
  z = 0 \/ z = 1 \/ z = 2 \/ z = 3 \/ z = 4 \/ z = 5 \/ z = 6 \/ z = 7.
Proof. lia. Qed.

Lemma numStr_head z z' (s s' : string) :
  0 <= z < 8 -> 0 <= z' < 8 ->
  (numStr z ++ s = numStr z' ++ s')%string -> z = z' /\ s = s'.
Proof.
  intros Hz Hz'. apply digit_cases in Hz, Hz'.
  destruct Hz as [->|[->|[->|[->|[->|[->|[->| ->]]]]]]];
    destruct Hz' as [->|[->|[->|[->|[->|[->|[->| ->]]]]]]];
    cbn; intros H; try discriminate; injection H as ->; auto.
Qed.

Lemma contextKey_inj t t' cr cr' ep ep' :
  onBoard ep -> onBoard ep' ->
  contextKey t cr ep = contextKey t' cr' ep' ->
  t = t' /\ cr = cr' /\ ep = ep'.
Proof.
  intros Hep Hep'. unfold contextKey. intros H.
  cbn [append] in H. injection H as H.
  apply colorName_head in H. destruct H as [-> H].
  cbn [append] in H. injection H as H.
  apply boolStr_head in H. destruct H as [H1 H].
  apply boolStr_head in H. destruct H as [H2 H].
  apply boolStr_head in H. destruct H as [H3 H].
  apply boolStr_head in H. destruct H as [H4 H].
  split; [reflexivity|]. split.
  - destruct cr, cr'; cbn in *; congruence.
  - destruct ep as [e|], ep' as [e'|]; cbn in H; try discriminate; [|reflexivity].
    injection H as H. cbn [onBoard] in Hep, Hep'.
    apply isValidSquare_true in Hep, Hep'.
    apply numStr_head in H; [|tauto..]. destruct H as [Hr H].
    rewrite <- (append_nil_r (numStr (col e))) in H.
    rewrite <- (append_nil_r (numStr (col e'))) in H.
    apply numStr_head in H; [|tauto..]. destruct H as [Hc _].
    destruct e as [er ek], e' as [er' ek']; cbn in *; congruence.
Qed.

Lemma boardToString_split b :
  exists pieces : string,
    (forall t' cr' ep',
       boardToString b t' cr' ep' = (pieces ++ contextKey t' cr' ep')%string).
Proof.
  unfold boardToString. cbv zeta.
  match goal with
  | |- context [fold_left ?f allSquares ?e] => generalize (fold_left f allSquares e)
  end.
  intros pieces. exists pieces. intros t' cr' ep'. unfold contextKey.
  destruct ep' as [e|].
  - rewrite !append_assoc'. reflexivity.
  - rewrite append_nil_r. reflexivity.
Qed.

(** X16: on one board, two keys are equal only if side to move, all four
    castling rights and the en passant target (a square of the board, or
    none) are equal. *)
Theorem boardToString_context b t t' cr cr' ep ep' :
  onBoard ep -> onBoard ep' ->
  boardToString b t cr ep = boardToString b t' cr' ep' ->
  t = t' /\ cr = cr' /\ ep = ep'.
Proof.
  intros Hep Hep' H. destruct (boardToString_split b) as [pieces Hs].
  rewrite !Hs in H. apply append_inv_head in H.
  now apply contextKey_inj.
Qed.

Lemma fold_left_ext_in {A B : Type} (f g : A -> B -> A) (l : list B) (a : A) :
  (forall x y, f x y = g x y) -> fold_left f l a = fold_left g l a.
Proof.
  intros H. revert a. induction l as [|y l IH]; intros a; cbn; [reflexivity|].
  now rewrite H, IH.
Qed.

(** X17: the key does not tell a king from a knight: both start with the
    letter k, so a board with a king on a square and the same board with
    a knight of that color there have one key, though they differ. *)
Theorem boardToString_king_knight b r k c t cr ep :
  wfBoard b = true -> isValidSquare r k = true ->
  boardToString (put b r k (Some (mkPiece king c))) t cr ep
  = boardToString (put b r k (Some (mkPiece knight c))) t cr ep
  /\ get (put b r k (Some (mkPiece king c))) r k
     <> get (put b r k (Some (mkPiece knight c))) r k.
Proof.
  intros Hwf Hv. split.
  - unfold boardToString. cbv zeta.
    match goal with
    | |- ?L = ?R =>
        match L with
        | context [fold_left ?f1 allSquares ?e] =>
            match R with
            | context [fold_left ?f2 allSquares e] =>
                assert (Hf : fold_left f1 allSquares e = fold_left f2 allSquares e)
            end
        end
    end.
    { apply fold_left_ext_in. intros acc sq. unfold getAt.
      rewrite !get_put by assumption. rewrite Hv. cbn [andb].
      destruct ((row sq =? r) && (col sq =? k)); [|reflexivity].
      destruct c; reflexivity. }
    rewrite Hf. reflexivity.
  - rewrite !get_put_same by assumption. discriminate.
Qed.

Lemma insertByPriority_In h l x :
  In x (insertByPriority h l) <-> x = h \/ In x l.
Proof.
  induction l as [|y t IH]; cbn.
  - split; intros [H|H]; auto.
  - destruct (priority y <? priority h); cbn; [|rewrite IH]; split;
      intuition auto.
Qed.

Lemma insertByPriority_descending h l :
  descending l -> descending (insertByPriority h l).
Proof.
  unfold descending. induction l as [|y t IH]; intros Hs; cbn.
  - constructor; [constructor | constructor].
  - apply StronglySorted_inv in Hs. destruct Hs as [Ht Hy].
    destruct (priority y <? priority h) eqn:Hc.
    + apply Z.ltb_lt in Hc. constructor.
      * constructor; assumption.
      * constructor; [lia|]. rewrite Forall_forall in *. intros z Hz.
        specialize (Hy z Hz). lia.
    + apply Z.ltb_ge in Hc. constructor; [now apply IH|].
      rewrite Forall_forall in *. intros z Hz.
      apply insertByPriority_In in Hz. destruct Hz as [->|Hz]; [lia | auto].
Qed.

Lemma sortByPriority_spec l :
  descending (sortByPriority l) /\ forall x, In x (sortByPriority l) <-> In x l.
Proof.
  unfold sortByPriority.
  assert (H : forall acc, descending acc ->
            descending (fold_left (fun a h => insertByPriority h a) l acc)
            /\ forall x, In x (fold_left (fun a h => insertByPriority h a) l acc)
                         <-> In x acc \/ In x l).
  { induction l as [|h t IH]; intros acc Hacc; cbn.
    - split; [assumption|]. intros x. tauto.
    - destruct (IH (insertByPriority h acc) (insertByPriority_descending h acc Hacc))
        as [Hd Hin].
      split; [assumption|]. intros x. rewrite Hin, insertByPriority_In.
      cbn [In]. intuition (subst; auto). }
  destruct (H [] (SSorted_nil _)) as [Hd Hin]. split; [assumption|].
  intros x. rewrite Hin. cbn. tauto.
Qed.

Lemma hintCandidates_In s h :
  In h (hintCandidates s) <->
  (exists piece, getAt (board s) (hintFrom h) = Some piece /\ color piece = white)
  /\ In (hintTo h) (getValidMoves (enPassantTarget s) (castlingRights s)
                                  (hintFrom h) (board s))
  /\ priority h = hintPriority (board s) (hintFrom h) (hintTo h).
Proof.
  unfold hintCandidates. rewrite in_flat_map. split.
  - intros (sq & Hsq & Hh).
    destruct (getAt (board s) sq) as [piece|] eqn:Hg; [|destruct Hh].
    destruct (color_eqb (color piece) white) eqn:Hc; [|destruct Hh].
    apply in_map_iff in Hh. destruct Hh as (t & <- & Ht). cbn.
    split; [exists piece; split; [assumption | now apply color_eqb_eq]|]. auto.
  - intros ((piece & Hg & Hc) & Ht & Hp). exists (hintFrom h). split.
    + apply allSquares_In. unfold getAt in Hg. eapply get_Some_valid, Hg.
    + rewrite Hg. apply color_eqb_eq in Hc. rewrite Hc. apply in_map_iff.
      exists (hintTo h). split; [|assumption].
      destruct h as [f t p]. cbn in *. now subst.
Qed.

(** X18: the hint is absent when White has no valid move; otherwise it
    is a valid move of a white piece, carries the priority the source
    computes for it, and no valid move has a higher priority. *)
Theorem handleHint_shows_best_legal_move s rnd :
  (hintCandidates s = [] -> handleHint s rnd = None)
  /\ (hintCandidates s <> [] ->
      exists h,
        handleHint s rnd = Some h
        /\ (exists piece, getAt (board s) (hintFrom h) = Some piece
                          /\ color piece = white)
        /\ In (hintTo h) (getValidMoves (enPassantTarget s) (castlingRights s)
                                        (hintFrom h) (board s))
        /\ priority h = hintPriority (board s) (hintFrom h) (hintTo h)
        /\ forall m, In m (hintCandidates s) -> priority m <= priority h).
Proof.
  unfold handleHint. cbv zeta. split.
  - intros ->. reflexivity.
  - intros Hne.
    destruct (sortByPriority_spec (hintCandidates s)) as [Hd Hin].
    destruct (hintCandidates s) as [|c0 cs] eqn:Hc; [congruence|].
    cbn [List.length]. rewrite Nat2Z.inj_succ.
    replace (Z.succ (Z.of_nat (List.length cs)) =? 0) with false
      by (symmetry; apply Z.eqb_neq; lia).
    destruct (sortByPriority (c0 :: cs)) as [|top rest] eqn:Hs.
    { exfalso. apply (proj2 (Hin c0)). now left. }
    assert (Htop : In top (filter (fun m => priority m =? priority top) (top :: rest))).
    { apply filter_In. split; [now left | apply Z.eqb_refl]. }
    destruct (pick_In rnd (filter (fun m => priority m =? priority top) (top :: rest)))
      as (h & Hh & Hhin).
    { intros Hnil. rewrite Hnil in Htop. destruct Htop. }
    exists h. split; [exact Hh|].
    apply filter_In in Hhin. destruct Hhin as [Hhs Hp]. apply Z.eqb_eq in Hp.
    apply Hin in Hhs. rewrite <- Hc in Hhs. apply hintCandidates_In in Hhs.
    destruct Hhs as (Hpc & Hv & Hpr). repeat (split; [assumption|]).
    intros m Hm. apply Hin in Hm. rewrite Hp.
    apply StronglySorted_inv in Hd. destruct Hd as [_ Hall].
    destruct Hm as [<-|Hm]; [lia|]. rewrite Forall_forall in Hall. now apply Hall.
Qed.

Lemma findKing_spec_witness :
  getAt initializeBoard (mkPos 7 4) = Some (mkPiece king white)
  /\ isValidSquare 7 4 = true
  /\ hd_error (kingSquares initializeBoard white) = Some (mkPos 7 4).
Proof.
  destruct (findKing_spec initializeBoard white) as [H _].
  apply (H (mkPos 7 4)). reflexivity.
Defined.

Lemma pseudoLegalMoves_on_board_witness :
  isValidSquare 5 5 = true /\ isValidSquare 7 6 = true /\ mkPos 5 5 <> mkPos 7 6.
Proof.
  apply (pseudoLegalMoves_on_board None allRights (mkPos 7 6) initializeBoard (mkPos 5 5)).
  vm_compute. auto.
Defined.

Lemma pseudoLegalMoves_own_piece_only_en_passant_witness :
  type (mkPiece pawn white) = pawn /\ Some (mkPos 2 4) = Some (mkPos 2 4).
Proof.
  apply (pseudoLegalMoves_own_piece_only_en_passant
           (Some (mkPos 2 4)) allRights (mkPos 3 3) pawnBesideKnight
           (mkPiece pawn white) (mkPos 2 4) (mkPiece knight white)).
  - reflexivity.
  - vm_compute. auto.
  - reflexivity.
  - reflexivity.
Defined.

Lemma sliders_do_not_jump_witness :
  exists d (n : nat),
    In d (sliderDirs rook) /\ (1 <= n <= 7)%nat
    /\ mkPos 0 3 = mkPos (0 + Z.of_nat n * fst d) (0 + Z.of_nat n * snd d)
    /\ forall j : nat, (1 <= j < n)%nat ->
         get rookFacesKing (0 + Z.of_nat j * fst d) (0 + Z.of_nat j * snd d) = None.
Proof.
  apply (sliders_do_not_jump None allRights (mkPos 0 0) rookFacesKing
           (mkPiece rook white) (mkPos 0 3)).
  - reflexivity.
  - right. left. reflexivity.
  - vm_compute. auto.
Defined.

Lemma attack_iff_capture_witness :
  isSquareUnderAttack (mkPos 0 4) rookFacesKing white = true <->
  exists q piece,
    getAt rookFacesKing q = Some piece /\ color piece = white
    /\ In (mkPos 0 4) (getPseudoLegalMoves None allRights q rookFacesKing).
Proof.
  apply (attack_iff_capture allRights rookFacesKing (mkPos 0 4) (mkPiece king black) white).
  - reflexivity.
  - discriminate.
Defined.

Lemma human_move_bookkeeping_witness :
  halfMoveClock (fst (applyHumanMove initialState (mkPos 7 6) 5 5)) = 1
  /\ enPassantTarget (fst (applyHumanMove initialState (mkPos 7 6) 5 5)) = None
  /\ positionHistory (fst (applyHumanMove initialState (mkPos 7 6) 5 5))
     = [keyOf (fst (applyHumanMove initialState (mkPos 7 6) 5 5)) black].
Proof.
  destruct (human_move_bookkeeping initialState (mkPos 7 6) 5 5 (mkPiece knight white))
    as (Hc & He & _ & _ & Hh); try reflexivity.
  split; [rewrite Hc; reflexivity|]. split; [rewrite He; reflexivity|].
  apply Hh. rewrite Hc. reflexivity.
Defined.

Lemma applyHumanMove_promotion_witness :
  halfMoveClock (fst (applyHumanMove beforePromotionQuiet (mkPos 1 1) 0 0))
  = halfMoveClock beforePromotionQuiet
  /\ enPassantTarget (fst (applyHumanMove beforePromotionQuiet (mkPos 1 1) 0 0))
     = enPassantTarget beforePromotionQuiet
  /\ positionHistory (fst (applyHumanMove beforePromotionQuiet (mkPos 1 1) 0 0))
     = positionHistory beforePromotionQuiet
  /\ promotionSquare (fst (applyHumanMove beforePromotionQuiet (mkPos 1 1) 0 0))
     = Some (mkPos 0 0)
  /\ snd (applyHumanMove beforePromotionQuiet (mkPos 1 1) 0 0) = None.
Proof.
  apply (applyHumanMove_promotion beforePromotionQuiet (mkPos 1 1) 0 0
           (mkPiece pawn white)); vm_compute; reflexivity.
Defined.

Lemma selectionOk_initialState : selectionOk initialState.
Proof. intros sel H. discriminate. Qed.

Lemma selectionOk_e2Selected : selectionOk e2Selected.
Proof. apply selectPiece_selectionOk. Qed.

Lemma clicks_keep_selection_legal_witness :
  selectionOk (fst (handleSquareClick e2Selected 4 4))
  /\ (board (fst (handleSquareClick e2Selected 4 4)) <> board e2Selected ->
      currentTurn e2Selected = white /\ isCheckmate e2Selected = false
      /\ isDraw e2Selected = false /\ promotionSquare e2Selected = None
      /\ exists sel piece,
           selectedSquare e2Selected = Some sel
           /\ getAt (board e2Selected) sel = Some piece /\ color piece = white
           /\ In (mkPos 4 4)
                 (getValidMoves (enPassantTarget e2Selected) (castlingRights e2Selected)
                                sel (board e2Selected))).
Proof.
  apply (clicks_keep_selection_legal e2Selected 4 4). apply selectionOk_e2Selected.
Defined.

Lemma human_move_keeps_king_safe_witness :
  isKingInCheck (board (fst (handleSquareClick e2Selected 4 4))) white = false
  /\ exists sel piece,
       selectedSquare e2Selected = Some sel /\ getAt (board e2Selected) sel = Some piece
       /\ board (fst (handleSquareClick e2Selected 4 4))
          = simulateMove (enPassantTarget e2Selected) sel (mkPos 4 4)
                         (board e2Selected) piece.
Proof.
  apply (human_move_keeps_king_safe e2Selected 4 4).
  - apply selectionOk_e2Selected.
  - reflexivity.
  - intros e H. vm_compute in H. discriminate.
  - intros H. vm_compute in H. discriminate.
Defined.

Lemma makeAIMove_without_moves_witness :
  makeAIMove initialState 0 corneredKing allRights None initialState
  = (if isKingInCheck corneredKing black
     then setIsCheckmate true initialState
     else declareDraw "Stalemate" (setIsStalemate true initialState))
  /\ board (makeAIMove initialState 0 corneredKing allRights None initialState)
     = board initialState
  /\ currentTurn (makeAIMove initialState 0 corneredKing allRights None initialState)
     = currentTurn initialState.
Proof.
  apply (makeAIMove_without_moves initialState 0 corneredKing allRights None initialState).
  vm_compute. reflexivity.
Defined.

Lemma boardToString_context_witness :
  white = white /\ allRights = allRights /\ Some (mkPos 5 4) = Some (mkPos 5 4).
Proof.
  apply (boardToString_context initializeBoard white white allRights allRights
           (Some (mkPos 5 4)) (Some (mkPos 5 4))).
  - reflexivity.
  - reflexivity.
  - reflexivity.
Defined.

Lemma boardToString_king_knight_witness :
  boardToString (put initializeBoard 4 4 (Some (mkPiece king white))) black allRights None
  = boardToString (put initializeBoard 4 4 (Some (mkPiece knight white))) black allRights None
  /\ get (put initializeBoard 4 4 (Some (mkPiece king white))) 4 4
     <> get (put initializeBoard 4 4 (Some (mkPiece knight white))) 4 4.
Proof.
  apply (boardToString_king_knight initializeBoard 4 4 white black allRights None);
    reflexivity.
Defined.

Lemma handleHint_shows_best_legal_move_witness :
  exists h,
    handleHint initialState 0 = Some h
    /\ (exists piece, getAt (board initialState) (hintFrom h) = Some piece
                      /\ color piece = white)
    /\ In (hintTo h) (getValidMoves (enPassantTarget initialState)
                                    (castlingRights initialState)
                                    (hintFrom h) (board initialState))
    /\ priority h = hintPriority (board initialState) (hintFrom h) (hintTo h)
    /\ forall m, In m (hintCandidates initialState) -> priority m <= priority h.
Proof.
  destruct (handleHint_shows_best_legal_move initialState 0) as [_ H].
  apply H. vm_compute. discriminate.
Defined.

Lemma walkFuel_enough_witness :
  rayAttack (walkFuel + 5) initializeBoard black rook queen (7 + -1) (4 + 0) (-1) 0
  = rayAttack walkFuel initializeBoard black rook queen (7 + -1) (4 + 0) (-1) 0.
Proof.
  apply (walkFuel_enough initializeBoard black rook queen 7 4 (-1) 0 5).
  - unfold isDirection. lia.
  - reflexivity.
Defined.
